(** * MultimodalWebAgent: a shallow embedding of the agent's Python core

    Three source files are embedded, one module each:
    - [src/autogen_config/GetConfig.py]  as [GetConfig],
    - [src/webdriver/webdriver.py]       as [WebDriver],
    - [src/oai_agent/oai_agent.py]       as [OaiAgent].

    Python code that can raise is a computation in a state-and-error monad
    [M S A]: it threads a state [S] (the log, the Playwright world, the
    state of the libraries) and ends in a value or in a raised exception.
    State written before a [raise] stays written, as in Python. *)

From Stdlib Require Import ZArith String List Lia.
From stdpp Require Import base option list strings gmap.

Local Open Scope string_scope.
Local Open Scope list_scope.

(** ** Python basics: exceptions, results, try/except *)

Module Py.

(** Instances of Python's [Exception] class, the ones [except Exception]
    catches.  Interpreter-exit signals (the rest of [BaseException]) are
    outside the model. *)
Inductive exn : Type :=
| Exception (msg : string)        (* a plain [Exception(msg)] *)
| AttributeError (attr : string)  (* [self.attr] on an object without it *)
| KeyError (key : string)         (* [d[key]] on a dict without it *)
| TypeError (msg : string)
| RecursionError                  (* the interpreter's stack limit *)
| NotFoundError (msg : string)    (* [openai.NotFoundError] *)
| HTTPException (status_code : nat) (detail : string)
| LibraryError (msg : string).    (* any other exception of a library *)

Inductive result (A : Type) : Type :=
| Ok (a : A)
| Raise (e : exn).
Arguments Ok {A} a.
Arguments Raise {A} e.

Definition is_ok {A} (r : result A) : bool :=
  match r with Ok _ => true | Raise _ => false end.

(** [str(e)] *)
Definition str (e : exn) : string :=
  match e with
  | Exception m | TypeError m | NotFoundError m | LibraryError m => m
  | AttributeError a => "object has no attribute '" +:+ a +:+ "'"
  | KeyError k => "'" +:+ k +:+ "'"
  | RecursionError => "maximum recursion depth exceeded"
  | HTTPException c d => d
  end.

Inductive level : Type := INFO | WARNING | ERROR.

(** A record of the [logging] module: level and message. *)
Definition log_record : Type := level * string.

Definition M (S A : Type) : Type := S -> result A * S.

Definition ret {S A} (a : A) : M S A := fun s => (Ok a, s).

Definition raise {S A} (e : exn) : M S A := fun s => (Raise e, s).

Definition bind {S A B} (m : M S A) (k : A -> M S B) : M S B :=
  fun s =>
    match m s with
    | (Ok a, s') => k a s'
    | (Raise e, s') => (Raise e, s')
    end.

(** [try: body  except Exception as e: handler e] *)
Definition try_except {S A} (body : M S A) (handler : exn -> M S A) : M S A :=
  fun s =>
    match body s with
    | (Ok a, s') => (Ok a, s')
    | (Raise e, s') => handler e s'
    end.

Definition get {S} : M S S := fun s => (Ok s, s).
Definition modify {S} (f : S -> S) : M S unit := fun s => (Ok tt, f s).

(** Lifting a library outcome that touches no state. *)
Definition of_result {S A} (r : result A) : M S A := fun s => (r, s).

End Py.

Import Py.

Declare Scope py_scope.
Delimit Scope py_scope with py.
Notation "x <- m ;; k" := (bind m (fun x => k))
  (at level 100, m at next level, right associativity) : py_scope.
Notation "m ;;; k" := (bind m (fun _ => k))
  (at level 100, right associativity) : py_scope.
Local Open Scope py_scope.

(** ** GetConfig.py *)

Module GetConfig.

(** A value of a JSON object of [OAI_CONFIG_LIST]. *)
Inductive jval : Type :=
| JStr (s : string)
| JNum (z : Z)
| JBool (b : bool)
| JNull.

(** One provider entry: a Python dict with string keys. *)
Abbreviation config := (gmap string jval).

(** The instance: [self.api_key] and [self.config_list]; the latter is the
    dict [{'config_list': [...]}] the constructor stores. *)
Record t : Type := mk {
  api_key : string;
  config_list : gmap string (list config)
}.

Abbreviation logM := (M (list log_record)).

Definition logger (lv : level) (msg : string) : logM unit :=
  modify (fun lg => lg ++ [(lv, msg)]).

(** Python's [not s] on a string. *)
Definition str_falsy (s : string) : bool :=
  match s with EmptyString => true | String _ _ => false end.

Section WithHost.

(** [os.environ] of the process. *)
Variable environ : gmap string string.
(** [os.path.dirname(__file__)]. *)
Variable module_dir : string.
(** autogen's [config_list_from_json(env_or_file, filter_dict)]: the
    entries it yields on this host, or the exception it raises. *)
Variable config_list_from_json : string -> gmap string string -> result (list config).

Definition config_path : string := module_dir +:+ "/" +:+ "OAI_CONFIG_LIST".

Definition filter_dict : gmap string string :=
  {[ "model" := "gpt-4-turbo-preview" ]}.

(** [for config in config_list: config['api_key'] = self.api_key] *)
Definition enrich (key : string) (cl : list config) : list config :=
  (fun c : config => <["api_key" := JStr key]> c) <$> cl.

Definition load_and_enrich_config_list (self_api_key : string)
  : logM (gmap string (list config)) :=
  cl <- try_except
          (cl <- of_result (config_list_from_json config_path filter_dict) ;;
           logger INFO "Config list loaded successfully" ;;;
           let cl' := enrich self_api_key cl in
           logger INFO "Config list enriched with API key" ;;;
           ret cl')
          (fun _ =>
             logger ERROR "Failed to load or enrich the config list." ;;;
             ret []) ;;
  ret {[ "config_list" := cl ]}.

(** [GetConfig.__init__] *)
Definition init : logM t :=
  logger INFO "Initializing GetConfig class" ;;;
  let key := default "" (environ !! "OPENAI_API_KEY") in
  (if str_falsy key
   then logger ERROR "OPENAI_API_KEY not found in environment variables"
   else ret tt) ;;;
  cl <- load_and_enrich_config_list key ;;
  ret {| api_key := key; config_list := cl |}.

End WithHost.

End GetConfig.

(** ** webdriver.py *)

Module WebDriver.

(** *** The Playwright side *)

(** Keyword arguments of [chromium.launch]. *)
Record launch_options : Type := mk_launch {
  headless : bool;
  args : list string;
  env : gmap string string
}.

Record browser : Type := mk_browser {
  br_engine : nat;
  br_options : launch_options;
  br_connected : bool
}.

(** A browser context with the options it was created with; [None] is an
    option that was not passed, for which Chromium keeps its own default. *)
Record context : Type := mk_context {
  cx_browser : nat;
  cx_locale : option string;
  cx_timezone_id : option string
}.

Record page : Type := mk_page {
  pg_context : nat;
  pg_closed : bool;
  pg_viewport : Z * Z
}.

(** What the host answers to the three questions [createDriver] asks. *)
Record host : Type := mk_host {
  get_localzone_name : result string;
  getdefaultlocale : result (option string * option string);
  getenv_DISPLAY : option string
}.

(** *** The Python side *)

(** Values stored in instance attributes: handles of Playwright objects. *)
Inductive value : Type :=
| VEngine (n : nat)
| VBrowser (b : nat)
| VPage (p : nat).

(** [system_locale] is the tuple of [getdefaultlocale] or the string that
    replaces it. *)
Inductive locale_value : Type :=
| LTuple (t : option string * option string)
| LStr (s : string).

(** Objects are referred to by their index in [heap]; engines, browsers,
    contexts and pages by their index in the list that holds them.  The
    lists only grow, so an index is never reused: two handles are the same
    Python object exactly when the indices are equal. *)
Record world : Type := mk_world {
  cls_instance : option nat;            (* [WebDriver.__instance] *)
  heap : list (gmap string value);      (* [__dict__] of each instance *)
  engines : list bool;                  (* started engines: still running? *)
  browsers : list browser;
  contexts : list context;
  pages : list page;
  log : list log_record;
  faults : list (option exn);           (* outcomes of the library calls to come *)
  the_host : host
}.

Definition set_cls_instance (v : option nat) (w : world) : world :=
  mk_world v (heap w) (engines w) (browsers w) (contexts w) (pages w)
           (log w) (faults w) (the_host w).
Definition set_heap (v : list (gmap string value)) (w : world) : world :=
  mk_world (cls_instance w) v (engines w) (browsers w) (contexts w) (pages w)
           (log w) (faults w) (the_host w).
Definition set_engines (v : list bool) (w : world) : world :=
  mk_world (cls_instance w) (heap w) v (browsers w) (contexts w) (pages w)
           (log w) (faults w) (the_host w).
Definition set_browsers (v : list browser) (w : world) : world :=
  mk_world (cls_instance w) (heap w) (engines w) v (contexts w) (pages w)
           (log w) (faults w) (the_host w).
Definition set_contexts (v : list context) (w : world) : world :=
  mk_world (cls_instance w) (heap w) (engines w) (browsers w) v (pages w)
           (log w) (faults w) (the_host w).
Definition set_pages (v : list page) (w : world) : world :=
  mk_world (cls_instance w) (heap w) (engines w) (browsers w) (contexts w) v
           (log w) (faults w) (the_host w).
Definition set_log (v : list log_record) (w : world) : world :=
  mk_world (cls_instance w) (heap w) (engines w) (browsers w) (contexts w)
           (pages w) v (faults w) (the_host w).
Definition set_faults (v : list (option exn)) (w : world) : world :=
  mk_world (cls_instance w) (heap w) (engines w) (browsers w) (contexts w)
           (pages w) (log w) v (the_host w).

Abbreviation wM := (M world).

Definition logger (lv : level) (msg : string) : wM unit :=
  modify (fun w => set_log (log w ++ [(lv, msg)]) w).

(** Every call into Playwright may raise: the next entry of [faults] says
    whether this one does.  No entry left means the call goes through. *)
Definition may_fail : wM unit :=
  fun w =>
    match faults w with
    | [] => (Ok tt, w)
    | None :: fs => (Ok tt, set_faults fs w)
    | Some e :: fs => (Raise e, set_faults fs w)
    end.

Definition closed_error : exn :=
  LibraryError "Target page, context or browser has been closed".

(** [sync_playwright().start()] *)
Definition playwright_start : wM nat :=
  may_fail ;;;
  w <- get ;;
  modify (set_engines (engines w ++ [true])) ;;;
  ret (length (engines w)).

(** [playwright.stop()] *)
Definition playwright_stop (n : nat) : wM unit :=
  may_fail ;;;
  modify (fun w => set_engines (<[n := false]> (engines w)) w).

(** [playwright.chromium.launch] with keyword arguments [opts] *)
Definition chromium_launch (n : nat) (opts : launch_options) : wM nat :=
  may_fail ;;;
  w <- get ;;
  modify (set_browsers (browsers w ++ [mk_browser n opts true])) ;;;
  ret (length (browsers w)).

Definition connected (b : nat) (w : world) : bool :=
  match browsers w !! b with
  | Some br => br_connected br
  | None => false
  end.

(** [browser.new_context(locale=..., timezone_id=...)] *)
Definition new_context (b : nat) (loc tz : option string) : wM nat :=
  w <- get ;;
  if connected b w then
    may_fail ;;;
    w <- get ;;
    modify (set_contexts (contexts w ++ [mk_context b loc tz])) ;;;
    ret (length (contexts w))
  else raise closed_error.

(** Playwright's default viewport. *)
Definition default_viewport : Z * Z := (1280, 720)%Z.

(** [browser.new_page()]: a new page in a new context of its own, both
    with default options. *)
Definition new_page (b : nat) : wM nat :=
  c <- new_context b None None ;;
  w <- get ;;
  modify (set_pages (pages w ++ [mk_page c false default_viewport])) ;;;
  ret (length (pages w)).

(** [page.is_closed()]; a page of a closed browser is closed. *)
Definition is_closed (p : nat) (w : world) : bool :=
  match pages w !! p with
  | Some pg => pg_closed pg
  | None => true
  end.

(** [page.set_viewport_size({"width": w, "height": h})] *)
Definition set_viewport_size (p : nat) (size : Z * Z) : wM unit :=
  w <- get ;;
  match pages w !! p with
  | Some pg =>
      if pg_closed pg then raise closed_error
      else
        may_fail ;;;
        modify (fun w => set_pages
                  (<[p := mk_page (pg_context pg) false size]> (pages w)) w)
  | None => raise closed_error
  end.

(** [page.close()]; closing a closed page does nothing. *)
Definition page_close (p : nat) : wM unit :=
  may_fail ;;;
  modify (fun w =>
    match pages w !! p with
    | Some pg => set_pages
        (<[p := mk_page (pg_context pg) true (pg_viewport pg)]> (pages w)) w
    | None => w
    end).

Definition page_of_browser (w : world) (b : nat) (pg : page) : bool :=
  match contexts w !! pg_context pg with
  | Some c => Nat.eqb (cx_browser c) b
  | None => false
  end.

(** [browser.close()]: the browser disconnects and its pages close. *)
Definition browser_close (b : nat) : wM unit :=
  may_fail ;;;
  modify (fun w =>
    match browsers w !! b with
    | Some br =>
        set_pages
          ((fun pg => if page_of_browser w b pg
                      then mk_page (pg_context pg) true (pg_viewport pg)
                      else pg) <$> pages w)
          (set_browsers
             (<[b := mk_browser (br_engine br) (br_options br) false]> (browsers w)) w)
    | None => w
    end).

(** *** Attributes *)

(** [self.name] *)
Definition getattr (self : nat) (name : string) : wM value :=
  w <- get ;;
  match heap w !! self ≫= (.!! name) with
  | Some v => ret v
  | None => raise (AttributeError name)
  end.

(** [self.name = v] *)
Definition setattr (self : nat) (name : string) (v : value) : wM unit :=
  modify (fun w =>
    match heap w !! self with
    | Some d => set_heap (<[self := <[name := v]> d]> (heap w)) w
    | None => w
    end).

(** [object.__new__(WebDriver)] *)
Definition alloc : wM nat :=
  w <- get ;;
  modify (set_heap (heap w ++ [∅])) ;;;
  ret (length (heap w)).

(** *** The class *)

(** Positional and keyword arguments. *)
Definition arguments : Type := list string * gmap string string.

Definition viewport : Z * Z := (960, 1080)%Z.

Definition display (h : host) : string := default ":99" (getenv_DISPLAY h).

Definition launch_args (h : host) : list string :=
  [ "--no-sandbox";
    "--disable-setuid-sandbox";
    "--disable-gpu";
    "--disable-dev-shm-usage";
    "--remote-debugging-port=9222";
    "--disable-web-security";
    "--allow-running-insecure-content";
    "--display=" +:+ display h ].

Definition the_launch_options (h : host) : launch_options :=
  {| headless := false;
     args := launch_args h;
     env := {[ "DISPLAY" := display h ]} |}.

Definition as_browser (v : value) : wM nat :=
  match v with
  | VBrowser b => ret b
  | _ => raise (AttributeError "new_page")
  end.

Definition createDriver (self : nat) (_ : arguments) : wM unit :=
  w <- get ;;
  let h := the_host w in
  timezone_id <- of_result (get_localzone_name h) ;;
  system_locale <- of_result (getdefaultlocale h) ;;
  let system_locale :=
    match fst system_locale with
    | None => LStr "en-US"
    | Some _ => LTuple system_locale
    end in
  try_except
    (logger INFO "Starting Playwright..." ;;;
     playwright <- playwright_start ;;
     logger INFO "Launching Chromium browser..." ;;;
     browser <- chromium_launch playwright (the_launch_options h) ;;
     logger INFO "Creating new browser context..." ;;;
     context <- new_context browser None None ;;
     logger INFO "Opening new page..." ;;;
     setattr self "browser" (VBrowser browser) ;;;
     p <- new_page browser ;;
     setattr self "page" (VPage p) ;;;
     set_viewport_size p viewport ;;;
     logger INFO "Browser instance created successfully.")
    (fun e =>
       logger ERROR "Failed to create browser instance." ;;;
       raise e).

Definition singleton_error : exn := Exception "This class is a singleton!".

(** [WebDriver.__init__] *)
Definition init (self : nat) (a : arguments) : wM unit :=
  w <- get ;;
  match cls_instance w with
  | Some _ => raise singleton_error
  | None =>
      modify (set_cls_instance (Some self)) ;;;
      createDriver self a
  end.

(** Calling the class: allocate the object, then run [__init__] on it. *)
Definition new (a : arguments) : wM nat :=
  self <- alloc ;;
  init self a ;;;
  ret self.

(** [getInstance] returns the class attribute: a reference or [None]. *)
Definition getInstance (a : arguments) : wM (option nat) :=
  w <- get ;;
  (match cls_instance w with
   | None =>
       self <- new a ;;
       modify (set_cls_instance (Some self))
   | Some _ => ret tt
   end) ;;;
  w <- get ;;
  ret (cls_instance w).

Definition getDriver (self : nat) : wM value := getattr self "page".

Definition closeDriver (self : nat) : wM unit :=
  try_except
    (b <- getattr self "browser" ;;
     b <- as_browser b ;;
     browser_close b ;;;
     e <- getattr self "playwright" ;;
     match e with
     | VEngine n => playwright_stop n
     | _ => raise (AttributeError "stop")
     end ;;;
     logger INFO "Browser instance closed successfully.")
    (fun e =>
       logger ERROR "Failed to close browser instance." ;;;
       raise e).

(** A page object is truthy, so [self.page and not self.page.is_closed()]
    is [not self.page.is_closed()] once the attribute is read. *)
Definition closeCurrentTab (self : nat) : wM unit :=
  v <- getattr self "page" ;;
  w <- get ;;
  match v with
  | VPage p =>
      if negb (is_closed p w) then
        try_except
          (page_close p ;;;
           b <- getattr self "browser" ;;
           b <- as_browser b ;;
           p' <- new_page b ;;
           setattr self "page" (VPage p') ;;;
           set_viewport_size p' viewport ;;;
           logger INFO "Current tab closed successfully.")
          (fun e =>
             logger ERROR "Failed to close current tab." ;;;
             raise e)
      else ret tt
  | _ => raise (AttributeError "is_closed")
  end.

(** *** States *)

(** A fresh process on host [h] in which the library calls meet the
    outcomes [fs]. *)
Definition boot (h : host) (fs : list (option exn)) : world :=
  mk_world None [] [] [] [] [] [] fs h.

(** The world reached by running [m]. *)
Definition exec {A} (m : wM A) (w : world) : world := snd (m w).

(** The tab of page [p] is closed from outside the program. *)
Definition close_out_of_band (p : nat) (w : world) : world :=
  match pages w !! p with
  | Some pg => set_pages
      (<[p := mk_page (pg_context pg) true (pg_viewport pg)]> (pages w)) w
  | None => w
  end.

(** The options of the context page [p] lives in. *)
Definition page_context (w : world) (p : nat) : option context :=
  pg ← pages w !! p; contexts w !! pg_context pg.

End WebDriver.

(** ** oai_agent.py *)

Module OaiAgent.

Import GetConfig.

(** The tool functions imported from [src.tools]. *)
Inductive tool : Type :=
| analyze_content | click_element | go_back | input_text
| jump_to_search_engine | read_url | scroll | wait | save_to_file.

(** The values a message field holds in a conversation. *)
Inductive pyval : Type :=
| PNone
| PStr (s : string).

(** A chat message: a dict with string keys. *)
Abbreviation message := (gmap string pyval).

(** The dict [oai_config] handed to the assistant; the key ["stream"] is
    present only when streaming was asked for. *)
Record oai_config : Type := mk_oai_config {
  oc_config_list : list config;
  oc_assistant_id : string;
  oc_stream : option bool
}.

(** Keyword arguments of [autogen.UserProxyAgent]. *)
Record proxy_options : Type := mk_proxy_options {
  po_name : string;
  po_is_termination_msg : message -> result bool;
  po_human_input_mode : string;
  po_code_execution_config : gmap string jval
}.

Record PromptRequest : Type := mk_prompt { prompt : string }.

(** [needle in hay] on two Python strings. *)
Fixpoint contains (needle hay : string) : bool :=
  String.prefix needle hay ||
  match hay with
  | EmptyString => false
  | String _ rest => contains needle rest
  end.

(** [d[key]] *)
Definition getitem {V} (d : gmap string V) (key : string) : result V :=
  match d !! key with
  | Some v => Ok v
  | None => Raise (KeyError key)
  end.

(** [lambda msg: "TERMINATE" in msg["content"]] *)
Definition is_termination_msg (msg : message) : result bool :=
  match getitem msg "content" with
  | Ok (PStr s) => Ok (contains "TERMINATE" s)
  | Ok PNone => Raise (TypeError "argument of type 'NoneType' is not iterable")
  | Raise e => Raise e
  end.

(** Everything [oai_agent.py] calls and does not define: the two helpers
    of [src.oai_agent.utils], autogen, the websocket and the host.  Each
    call acts on the state [ext] of that outside world and may raise. *)
Class Library : Type := {
  ext : Type;
  agent : Type;        (* a [GPTAssistantAgent] *)
  proxy : Type;        (* a [UserProxyAgent] *)
  response : Type;     (* what [initiate_chat] returns *)
  load_assistant_id : string -> M ext string;
  create_agent : string -> M ext unit;
  GPTAssistantAgent : string -> string -> oai_config -> M ext agent;
  DEFAULT_SYSTEM_MESSAGE : string;
  register_function : agent -> gmap string tool -> M ext unit;
  UserProxyAgent : proxy_options -> M ext proxy;
  initiate_chat : proxy -> agent -> string -> M ext response;
  iostream_input : M ext string;
  iostream_send : response -> M ext unit;
  websocket_accept : M ext unit;
  repr_agent : agent -> string;
  repr_iostream : string;
  environ : gmap string string;
  module_dir : string;
  config_list_from_json : string -> gmap string string -> result (list config);
  (** How many nested activations of [configure_agent] the interpreter's
      stack has room for. *)
  recursion_limit : nat
}.

Section WithLibrary.

Context `{L : Library}.

(** The state of a handler: the outside world, the log, the console and
    the frames written to the websocket.  The libraries hold no
    reference to the [IOWebsockets] object [on_connect] receives, so
    only [iostream.output] adds a frame. *)
Record state : Type := mk_state {
  lib : ext;
  log : list log_record;
  stdout : list string;
  sent : list response
}.

Abbreviation aM := (M state).

(** A library call, run on the [lib] part of the state. *)
Definition call {A} (m : M ext A) : aM A :=
  fun s =>
    let '(r, x) := m (lib s) in
    (r, mk_state x (log s) (stdout s) (sent s)).

(** Code that only logs, run on the [log] part of the state. *)
Definition logging {A} (m : M (list log_record) A) : aM A :=
  fun s =>
    let '(r, lg) := m (log s) in
    (r, mk_state (lib s) lg (stdout s) (sent s)).

Definition logger (lv : level) (msg : string) : aM unit :=
  logging (GetConfig.logger lv msg).

Definition print (line : string) : aM unit :=
  modify (fun s => mk_state (lib s) (log s) (stdout s ++ [line]) (sent s)).

(** [await iostream.output(response)]: the frame is on the wire when
    the call returns. *)
Definition iostream_output (r : response) : aM unit :=
  call (iostream_send r) ;;;
  modify (fun s => mk_state (lib s) (log s) (stdout s) (sent s ++ [r])).

(** The [try] block of [configure_agent]: one resolution of the
    identity. *)
Definition resolve (assistant_type : string) (stream : bool) : aM agent :=
  logger INFO "Configuring GPT Assistant Agent..." ;;;
  assistant_id <- call (load_assistant_id assistant_type) ;;
  cfg <- logging (GetConfig.init environ module_dir config_list_from_json) ;;
  let llm_config := config_list cfg in
  cl <- of_result (getitem llm_config "config_list") ;;
  let oai_config :=
    mk_oai_config cl assistant_id (if stream then Some true else None) in
  gpt_assistant <- call (GPTAssistantAgent assistant_type
                           DEFAULT_SYSTEM_MESSAGE oai_config) ;;
  logger INFO "GPT Assistant Agent configured." ;;;
  ret gpt_assistant.

(** [configure_agent] calls itself from its [NotFoundError] handler;
    [depth] is the room left on the stack, and a call that finds none
    raises [RecursionError] into the handler that made it. *)
Fixpoint configure_agent (depth : nat) (assistant_type : string)
         (stream : bool) : aM agent :=
  match depth with
  | O => raise RecursionError
  | S depth' =>
      try_except
        (resolve assistant_type stream)
        (fun e =>
           match e with
           | NotFoundError _ =>
               logger WARNING "Assistant not found. Creating new assistant..." ;;;
               call (create_agent assistant_type) ;;;
               configure_agent depth' assistant_type stream
           | _ =>
               logger ERROR ("Unexpected error during agent configuration: "
                             +:+ str e) ;;;
               raise e
           end)
  end.

Definition function_map : gmap string tool :=
  <["analyze_content" := analyze_content]>
  (<["click_element" := click_element]>
  (<["go_back" := go_back]>
  (<["input_text" := input_text]>
  (<["jump_to_search_engine" := jump_to_search_engine]>
  (<["read_url" := read_url]>
  (<["scroll" := scroll]>
  (<["wait" := wait]>
  (<["save_to_file" := save_to_file]> ∅)))))))).

Definition register_functions (a : agent) : aM unit :=
  logger INFO "Registering functions..." ;;;
  call (register_function a function_map) ;;;
  logger INFO "Functions registered.".

Definition create_user_proxy : aM proxy :=
  logger INFO "Creating User Proxy Agent..." ;;;
  user_proxy <- call (UserProxyAgent
    {| po_name := "user_proxy";
       po_is_termination_msg := is_termination_msg;
       po_human_input_mode := "NEVER";
       po_code_execution_config :=
         <["work_dir" := JStr "coding"]> (<["use_docker" := JBool false]> ∅) |}) ;;
  logger INFO "User Proxy Agent created." ;;;
  ret user_proxy.

(** The JSON object [{"response": response}]. *)
Definition response_body (r : response) : gmap string response :=
  {[ "response" := r ]}.

Definition internal_server_error : exn :=
  HTTPException 500 "Internal Server Error".

(** The [try] block of [get_response]. *)
Definition get_response_try (prompt_request : PromptRequest)
  : aM (gmap string response) :=
  gpt_assistant <- configure_agent recursion_limit "BrowsingAgent" false ;;
  register_functions gpt_assistant ;;;
  user_proxy <- create_user_proxy ;;
  r <- call (initiate_chat user_proxy gpt_assistant (prompt prompt_request)) ;;
  ret (response_body r).

(** [POST /get-web-agent-response] *)
Definition get_response (prompt_request : PromptRequest)
  : aM (gmap string response) :=
  try_except
    (get_response_try prompt_request)
    (fun e =>
       logger ERROR ("An error occurred: " +:+ str e) ;;;
       raise internal_server_error).

(** The [try] block of [on_connect]. *)
Definition on_connect_try : aM unit :=
  initial_msg <- call iostream_input ;;
  print ("Received initial message: " +:+ initial_msg) ;;;
  gpt_assistant <- configure_agent recursion_limit "BrowsingAgent" true ;;
  register_functions gpt_assistant ;;;
  user_proxy <- create_user_proxy ;;
  print (" - on_connect(): Initiating chat with agent "
         +:+ repr_agent gpt_assistant +:+ " using message '"
         +:+ initial_msg +:+ "'") ;;;
  r <- call (initiate_chat user_proxy gpt_assistant initial_msg) ;;
  iostream_output r.

Definition on_connect : aM unit :=
  print (" - on_connect(): Connected to client using IOWebsockets "
         +:+ repr_iostream) ;;;
  print " - on_connect(): Receiving message from client." ;;;
  try_except
    on_connect_try
    (fun e => print ("Exception in on_connect: " +:+ str e)).


End WithLibrary.

End OaiAgent.

(** ** Predicates the properties are stated with *)

Module Frame.

(** [m] never changes the part [proj] of the state, however it ends. *)
Definition keeps {S T A} (proj : S -> T) (m : M S A) : Prop :=
  forall s, proj (snd (m s)) = proj s.

(** [m] leaves the part [proj] of the state as it was when it raises. *)
Definition keeps_on_raise {S T A} (proj : S -> T) (m : M S A) : Prop :=
  forall s e s', m s = (Raise e, s') -> proj s' = proj s.

End Frame.

Module AgentSteps.

Import OaiAgent.

Section WithLibrary.

Context `{L : Library}.

(** What the [NotFoundError] handler of [configure_agent] does before it
    calls [configure_agent] again. *)
Definition create_after_not_found (assistant_type : string) : M state unit :=
  logger WARNING "Assistant not found. Creating new assistant..." ;;;
  call (create_agent assistant_type).

(** [not_found_rounds role stream n s s']: from [s], [n] times in a row the
    resolution signals "not found" and the creation that follows returns;
    [s'] is the state after the last creation. *)
Inductive not_found_rounds (assistant_type : string) (stream : bool)
  : nat -> state -> state -> Prop :=
| rounds_O s : not_found_rounds assistant_type stream 0 s s
| rounds_S n s m s1 s2 s3 :
    resolve assistant_type stream s = (Raise (NotFoundError m), s1) ->
    create_after_not_found assistant_type s1 = (Ok tt, s2) ->
    not_found_rounds assistant_type stream n s2 s3 ->
    not_found_rounds assistant_type stream (S n) s s3.

Definition is_not_found (e : exn) : bool :=
  match e with NotFoundError _ => true | _ => false end.


End WithLibrary.

End AgentSteps.

(** ** Concrete hosts and libraries, to run the code on *)

Module Scenario.

Import OaiAgent AgentSteps.

(** A host without a default locale. *)
Definition bare_host : WebDriver.host :=
  WebDriver.mk_host (Ok "Europe/Paris") (Ok (None, None)) None.

Definition no_arguments : WebDriver.arguments := ([], ∅).

(** The world after the first [getInstance] of a process on [bare_host]
    in which no library call fails. *)
Definition active : WebDriver.world :=
  WebDriver.exec (WebDriver.getInstance no_arguments)
                 (WebDriver.boot bare_host []).

(** An outside world for [oai_agent.py]: the oracle answers the next
    [not_found_left] resolutions with "not found" whatever was created,
    and the conversation ends as [chat_outcome] says. *)
Record sim : Type := mk_sim {
  not_found_left : nat;
  resolutions : nat;               (* calls of [GPTAssistantAgent] so far *)
  creations : nat;                 (* calls of [create_agent] so far *)
  chat_outcome : result string
}.

Definition sim_library : Library := {|
  ext := sim;
  agent := string;
  proxy := unit;
  response := string;
  load_assistant_id := fun role => ret ("asst_" +:+ role);
  create_agent := fun _ x =>
    (Ok tt, mk_sim (not_found_left x) (resolutions x) (S (creations x))
                   (chat_outcome x));
  GPTAssistantAgent := fun name _ cfg x =>
    match not_found_left x with
    | O => (Ok (oc_assistant_id cfg),
            mk_sim O (S (resolutions x)) (creations x) (chat_outcome x))
    | S n => (Raise (NotFoundError "No assistant found"),
              mk_sim n (S (resolutions x)) (creations x) (chat_outcome x))
    end;
  DEFAULT_SYSTEM_MESSAGE := "You are a helpful AI assistant.";
  register_function := fun _ _ => ret tt;
  UserProxyAgent := fun _ => ret tt;
  initiate_chat := fun _ _ _ x => (chat_outcome x, x);
  iostream_input := ret "find the weather in Paris";
  iostream_send := fun _ => ret tt;
  websocket_accept := ret tt;
  repr_agent := fun a => a;
  repr_iostream := "<IOWebsockets>";
  environ := ∅;
  module_dir := "/app/src/autogen_config";
  config_list_from_json := fun _ _ => Raise (LibraryError "OAI_CONFIG_LIST not found");
  recursion_limit := 1000
|}.

Definition start (x : sim) : state (L := sim_library) :=
  mk_state (L := sim_library) x [] [] [].

(** The oracle does not see the assistant until it was created twice. *)
Definition twice_not_found : state (L := sim_library) :=
  start (mk_sim 2 0 0 (Ok "It's 15 degrees. TERMINATE"%string)).

(** The assistant exists; the conversation fails upstream. *)
Definition chat_fails : state (L := sim_library) :=
  start (mk_sim 0 0 0 (Raise (LibraryError "rate limit"))).

(** One "not found" and the creation it triggers, as a state change. *)
Definition round (s : state (L := sim_library)) : state (L := sim_library) :=
  snd (create_after_not_found "BrowsingAgent"
         (snd (resolve "BrowsingAgent" false s))).

Definition after_two_rounds : state (L := sim_library) :=
  round (round twice_not_found).

End Scenario.

(** ** oai_agent.py: the connection handed to [IOWebsockets] *)

Module Connection.

(** What [send] accepts: a [str], a [bytes] or an iterable.  The method
    calls itself on every part of an iterable, so parts may nest. *)
#[local] Unset Elimination Schemes.
Inductive payload : Type :=
| Text (s : string)
| Bytes (b : list Byte.byte)
| Parts (ps : list payload).
#[local] Set Elimination Schemes.

(** One text frame to be: a string, or bytes still to be decoded. *)
Inductive leaf : Type :=
| LText (s : string)
| LBytes (b : list Byte.byte).

(** The strings and byte strings of a payload, left to right. *)
Fixpoint leaves (message : payload) : list leaf :=
  match message with
  | Text s => [LText s]
  | Bytes b => [LBytes b]
  | Parts ps => flat_map leaves ps
  end.

Section WithSocket.

(** The state of the Starlette [WebSocket] and its [send_text]. *)
Variable socket : Type.
Variable send_text : string -> M socket unit.
(** [bytes.decode('utf-8')]: the text, or the [UnicodeDecodeError]. *)
Variable decode : list Byte.byte -> result string.

(** [FastAPIServerConnection.send] *)
Fixpoint send (message : payload) : M socket unit :=
  match message with
  | Text s => send_text s
  | Bytes b =>
      s <- of_result (decode b) ;;
      send_text s
  | Parts ps =>
      (fix each (ps : list payload) : M socket unit :=
         match ps with
         | [] => ret tt
         | part :: rest => send part ;;; each rest
         end) ps
  end.

(** Sending one leaf, and a list of leaves one after the other. *)
Definition send_leaf (l : leaf) : M socket unit :=
  match l with
  | LText s => send_text s
  | LBytes b =>
      s <- of_result (decode b) ;;
      send_text s
  end.

Fixpoint send_each (ls : list leaf) : M socket unit :=
  match ls with
  | [] => ret tt
  | l :: rest => send_leaf l ;;; send_each rest
  end.

(** The text of every leaf, when every byte string decodes. *)
Fixpoint texts (ls : list leaf) : result (list string) :=
  match ls with
  | [] => Ok []
  | LText s :: rest =>
      match texts rest with
      | Ok ts => Ok (s :: ts)
      | Raise e => Raise e
      end
  | LBytes b :: rest =>
      match decode b, texts rest with
      | Ok s, Ok ts => Ok (s :: ts)
      | Raise e, _ => Raise e
      | Ok _, Raise e => Raise e
      end
  end.

End WithSocket.

(** A socket that records the text frames written to it, and a decoder
    for byte strings of 7-bit characters. *)
Definition recording_send_text (s : string) : M (list string) unit :=
  fun frames => (Ok tt, frames ++ [s]).

Definition decode_ascii (b : list Byte.byte) : result string :=
  if forallb (fun x => Nat.ltb (Byte.to_nat x) 128) b
  then Ok (string_of_list_byte b)
  else Raise (LibraryError "'utf-8' codec can't decode byte").

End Connection.

(** ** webdriver.py: what a process can do with the class *)

Module Process.

Import WebDriver.

(** The calls the rest of the program can make, and a tab closing under
    the program's feet. *)
Inductive action : Type :=
| GetInstance (a : arguments)
| Construct (a : arguments)
| GetDriver (self : nat)
| CloseDriver (self : nat)
| CloseCurrentTab (self : nat)
| TabClosed (p : nat).

Definition step (w : world) (x : action) : world :=
  match x with
  | GetInstance a => exec (getInstance a) w
  | Construct a => exec (new a) w
  | GetDriver self => exec (getDriver self) w
  | CloseDriver self => exec (closeDriver self) w
  | CloseCurrentTab self => exec (closeCurrentTab self) w
  | TabClosed p => close_out_of_band p w
  end.

(** The world after the actions [xs] of a process started on host [h]
    with the library outcomes [fs]. *)
Definition run (h : host) (fs : list (option exn)) (xs : list action) : world :=
  fold_left step xs (boot h fs).

End Process.

(** ** webdriver.py: what every reachable world satisfies *)

Module Invariant.

Import WebDriver.

(** [wp m Q E s]: run from [s], [m] returns a value and a state in [Q]
    or raises in a state in [E]. *)
Definition wp {S A} (m : M S A) (Q : A -> S -> Prop) (E : S -> Prop) (s : S) : Prop :=
  match m s with
  | (Ok a, s') => Q a s'
  | (Raise _, s') => E s'
  end.

(** [self.name], when the object and the attribute exist. *)
Definition attribute (w : world) (self : nat) (name : string) : option value :=
  heap w !! self ≫= (.!! name).

(** No object has an attribute [playwright], only the registered
    instance has attributes at all, and [page] holds a page. *)
Definition attributes_ok (w : world) : Prop :=
  forall self d, heap w !! self = Some d ->
    d !! "playwright" = None /\
    (d <> ∅ -> cls_instance w = Some self) /\
    (forall v, d !! "page" = Some v -> exists p, v = VPage p).

(** Nothing is started before an instance is registered, and at most
    one engine and one browser ever are. *)
Definition launched_once (w : world) : Prop :=
  (cls_instance w = None -> length (engines w) = 0 /\ length (browsers w) = 0) /\
  length (engines w) <= 1 /\ length (browsers w) <= 1.

(** Page [p] is what [getDriver] returns on the registered instance. *)
Definition current (w : world) (p : nat) : Prop :=
  exists self, cls_instance w = Some self /\
               attribute w self "page" = Some (VPage p).

Definition open_pages_current (w : world) : Prop :=
  forall p, is_closed p w = false -> current w p.

Definition good (w : world) : Prop :=
  attributes_ok w /\ launched_once w /\ open_pages_current w.

(** The states a method on [self] passes through. *)
Definition registered (self : nat) (w : world) : Prop :=
  cls_instance w = Some self /\ is_Some (heap w !! self).

(** No page is open. *)
Definition quiet (self : nat) (w : world) : Prop :=
  attributes_ok w /\ launched_once w /\ registered self w /\
  forall p, is_closed p w = true.

(** No page but [p] is open, and [self.page] is still to be set. *)
Definition fresh (self p : nat) (w : world) : Prop :=
  attributes_ok w /\ launched_once w /\ registered self w /\
  forall q, is_closed q w = false -> q = p.

(** [createDriver] has started nothing yet; the engine is started. *)
Definition starting (self : nat) (w : world) : Prop :=
  quiet self w /\ length (engines w) = 0 /\ length (browsers w) = 0.

Definition started (self : nat) (w : world) : Prop :=
  quiet self w /\ length (browsers w) = 0.

Definition settled (self : nat) (w : world) : Prop :=
  good w /\ registered self w.

(** [w'] differs from [w] in nothing the invariant looks at, except
    that pages may have closed. *)
Definition calmer (w w' : world) : Prop :=
  cls_instance w' = cls_instance w /\
  heap w' = heap w /\
  length (engines w') = length (engines w) /\
  length (browsers w') = length (browsers w) /\
  forall q, is_closed q w = true -> is_closed q w' = true.

(** However [m] ends, it has at most closed pages. *)
Definition only_calms {A} (m : wM A) : Prop :=
  forall w, wp m (fun _ w' => calmer w w') (fun w' => calmer w w') w.

(** The registered instance [r] has the closed page [p] as its page. *)
Definition dead (r p : nat) (w : world) : Prop :=
  cls_instance w = Some r /\
  attribute w r "page" = Some (VPage p) /\
  exists pg, pages w !! p = Some pg /\ pg_closed pg = true.

(** Every attribute an object has in [w], it has in [w']. *)
Definition adds (w w' : world) : Prop :=
  forall self name,
    is_Some (attribute w self name) -> is_Some (attribute w' self name).

(** However [m] ends, it has deleted no attribute. *)
Definition only_adds {A} (m : wM A) : Prop :=
  forall w, adds w (snd (m w)).

(** [P] is kept by everything that at most closes pages. *)
Definition stable (P : world -> Prop) : Prop :=
  forall w w', calmer w w' -> P w -> P w'.

End Invariant.

(** * Properties *)

(** ** The monad *)

Section MonadFacts.

Context {S A B : Type}.

Lemma bind_Ok_inv (m : M S A) (k : A -> M S B) s v s' :
  bind m k s = (Ok v, s') ->
  exists a s1, m s = (Ok a, s1) /\ k a s1 = (Ok v, s').
Proof.
  unfold bind. destruct (m s) as [[a|e] s1]; intros H.
  - exists a, s1. split; [reflexivity | exact H].
  - discriminate H.
Qed.

Lemma bind_Ok (m : M S A) (k : A -> M S B) s a s1 :
  m s = (Ok a, s1) -> bind m k s = k a s1.
Proof. unfold bind. intros ->. reflexivity. Qed.

Lemma bind_Raise (m : M S A) (k : A -> M S B) s e s1 :
  m s = (Raise e, s1) -> bind m k s = (Raise e, s1).
Proof. unfold bind. intros ->. reflexivity. Qed.

(** A handler that logs and raises hands nothing back: if the whole
    [try] returns, its body returned. *)
Lemma try_except_Ok_inv (body : M S A) (handler : exn -> M S A) s v s' :
  (forall e s0, is_ok (fst (handler e s0)) = false) ->
  try_except body handler s = (Ok v, s') ->
  body s = (Ok v, s').
Proof.
  unfold try_except. intros Hh. destruct (body s) as [[a|e] s1]; intros H.
  - exact H.
  - specialize (Hh e s1). rewrite H in Hh. discriminate Hh.
Qed.

End MonadFacts.

(** ** Frames: what a computation leaves alone *)

Section FrameFacts.

Import Frame.

Context {S T : Type} (proj : S -> T).

Lemma keeps_ret {A} (a : A) : keeps proj (ret a).
Proof. intros s. reflexivity. Qed.

Lemma keeps_raise {A} e : keeps proj (raise (A := A) e).
Proof. intros s. reflexivity. Qed.

Lemma keeps_get : keeps proj get.
Proof. intros s. reflexivity. Qed.

Lemma keeps_of_result {A} (r : result A) : keeps proj (of_result r).
Proof. intros s. reflexivity. Qed.

Lemma keeps_modify (f : S -> S) :
  (forall s, proj (f s) = proj s) -> keeps proj (modify f).
Proof. intros Hf s. apply Hf. Qed.

Lemma keeps_bind {A B} (m : M S A) (k : A -> M S B) :
  keeps proj m -> (forall a, keeps proj (k a)) -> keeps proj (bind m k).
Proof.
  intros Hm Hk s. unfold bind. specialize (Hm s).
  destruct (m s) as [[a|e] s1]; simpl in *.
  - rewrite Hk. exact Hm.
  - exact Hm.
Qed.

Lemma keeps_try {A} (body : M S A) (handler : exn -> M S A) :
  keeps proj body -> (forall e, keeps proj (handler e)) ->
  keeps proj (try_except body handler).
Proof.
  intros Hb Hh s. unfold try_except. specialize (Hb s).
  destruct (body s) as [[a|e] s1]; simpl in *.
  - exact Hb.
  - rewrite Hh. exact Hb.
Qed.

Lemma keeps_keeps_on_raise {A} (m : M S A) :
  keeps proj m -> keeps_on_raise proj m.
Proof. intros Hm s e s' H. specialize (Hm s). rewrite H in Hm. exact Hm. Qed.


End FrameFacts.

(** One step of a frame proof: split the computation at its head. *)
Ltac frame_step :=
  first
    [ apply keeps_bind; [| intros ?]
    | apply keeps_try; [| intros ?]
    | apply keeps_ret
    | apply keeps_raise
    | apply keeps_get
    | apply keeps_of_result
    | apply keeps_modify; intros ?; simpl;
      repeat match goal with |- context [match ?x with _ => _ end] => destruct x end;
      reflexivity
    | match goal with
      | |- Frame.keeps _ (match ?x with _ => _ end) => destruct x
      | |- Frame.keeps _ (if ?x then _ else _) => destruct x
      end ].

Ltac frame := repeat frame_step.

(** ** GetConfig.py *)

Section GetConfigFacts.

Import GetConfig.

Variable environ : gmap string string.
Variable module_dir : string.
Variable config_list_from_json : string -> gmap string string -> result (list config).

Let loaded := config_list_from_json (config_path module_dir) filter_dict.

Lemma enrich_api_key key (cl : list config) (c : config) :
  c ∈ enrich key cl -> c !! "api_key" = Some (JStr key).
Proof.
  unfold enrich. intros Hc. apply list_elem_of_fmap in Hc as (c0 & -> & _).
  apply lookup_insert_eq.
Qed.

(** C8: whatever the environment holds and whatever loading the config
    file does, constructing [GetConfig] returns an instance.  If loading
    raised, the instance holds [{'config_list': []}] and the failure is in
    the log; if [OPENAI_API_KEY] is absent, that is logged, the key is the
    empty string and every loaded entry carries it as ["api_key"]. *)
Theorem GetConfig_init_degrades (lg : list log_record) :
  exists cfg lg',
    init environ module_dir config_list_from_json lg = (Ok cfg, lg') /\
    (forall e, loaded = Raise e ->
       config_list cfg = {[ "config_list" := [] ]} /\
       (ERROR, "Failed to load or enrich the config list.") ∈ lg') /\
    (environ !! "OPENAI_API_KEY" = None ->
       api_key cfg = "" /\
       (ERROR, "OPENAI_API_KEY not found in environment variables") ∈ lg' /\
       forall cl, loaded = Ok cl ->
         exists l, config_list cfg = {[ "config_list" := l ]} /\
                   l = (fun c : config => <["api_key" := JStr ""]> c) <$> cl /\
                   forall c : config, c ∈ l -> c !! "api_key" = Some (JStr "")).
Proof.
  unfold init, load_and_enrich_config_list, try_except, bind, of_result,
    logger, modify, ret.
  fold loaded. destruct loaded as [cl|e] eqn:Hload;
    destruct (environ !! "OPENAI_API_KEY") as [k|] eqn:Hkey; simpl;
    try destruct (str_falsy k); simpl;
    eexists _, _; (split; [reflexivity|]); simpl; split.
  all: lazymatch goal with
       | |- forall _ : exn, _ =>
           intros e0 He0;
           first [ discriminate He0
                 | split; [reflexivity | set_solver] ]
       | |- _ =>
           intros Hk;
           first [ discriminate Hk
                 | split; [reflexivity|]; split; [set_solver|];
                   intros cl0 Hcl0;
                   first [ discriminate Hcl0
                         | injection Hcl0 as <-;
                           eexists; split; [reflexivity|];
                           split; [reflexivity|];
                           intros c; apply enrich_api_key ] ]
       end.
Qed.

End GetConfigFacts.

(** No key in the environment and a config file with one entry: the
    instance is built, the entry carries the empty key. *)
Example GetConfig_init_without_key :
  let entry : gmap string GetConfig.jval :=
    {[ "model" := GetConfig.JStr "gpt-4-turbo-preview" ]} in
  GetConfig.init ∅ "/app/src/autogen_config" (fun _ _ => Ok [entry]) []
  = (Ok (GetConfig.mk ""
           {[ "config_list" := [<["api_key" := GetConfig.JStr ""]> entry] ]}),
     [(INFO, "Initializing GetConfig class");
      (ERROR, "OPENAI_API_KEY not found in environment variables");
      (INFO, "Config list loaded successfully");
      (INFO, "Config list enriched with API key")]).
Proof. reflexivity. Qed.


(** ** webdriver.py: the singleton *)

Section Singleton.

Import WebDriver Frame.

Lemma keeps_instance_may_fail : keeps cls_instance may_fail.
Proof. intros w. unfold may_fail. destruct (faults w) as [|[e|] fs]; reflexivity. Qed.


Lemma keeps_instance_new_page b : keeps cls_instance (new_page b).
Proof.
  unfold new_page, new_context.
  frame; apply keeps_instance_may_fail.
Qed.

Lemma keeps_instance_set_viewport_size p size :
  keeps cls_instance (set_viewport_size p size).
Proof.
  unfold set_viewport_size.
  frame; apply keeps_instance_may_fail.
Qed.

Lemma keeps_instance_createDriver self a :
  keeps cls_instance (createDriver self a).
Proof.
  unfold createDriver, playwright_start, chromium_launch, new_context,
    setattr, logger.
  frame; first [ apply keeps_instance_may_fail
               | apply keeps_instance_new_page
               | apply keeps_instance_set_viewport_size ].
Qed.

(** Once the class attribute is set, [getInstance] only reads it. *)
Lemma getInstance_existing a w r :
  cls_instance w = Some r -> getInstance a w = (Ok (Some r), w).
Proof.
  intros H. unfold getInstance, bind, get, ret. rewrite H. simpl.
  rewrite H. reflexivity.
Qed.

(** However the first call ends, it leaves the class attribute set. *)
Lemma getInstance_sets_instance a w :
  is_Some (cls_instance (exec (getInstance a) w)).
Proof.
  destruct (cls_instance w) as [r|] eqn:Hw.
  - unfold exec. rewrite (getInstance_existing a w r Hw). simpl. rewrite Hw. eauto.
  - unfold exec, getInstance, new, init, alloc, bind, get, modify, ret. simpl.
    rewrite Hw. simpl. rewrite Hw.
    match goal with |- context [createDriver ?s ?x ?w0] =>
      pose proof (keeps_instance_createDriver s x w0) as Hk;
      destruct (createDriver s x w0) as [[[]|e] w3]
    end; simpl in *; eauto.
Qed.

(** C2: two calls of [getInstance] return the identical instance, a
    reference and not [None], and the second leaves the world as it was;
    calling the class once an instance exists raises
    [Exception("This class is a singleton!")] and registers nothing: the
    class attribute keeps the instance it had. *)
Theorem getInstance_identical_new_raises :
  (forall a1 a2 w v w1,
     getInstance a1 w = (Ok v, w1) ->
     is_Some v /\ getInstance a2 w1 = (Ok v, w1)) /\
  (forall a w r,
     cls_instance w = Some r ->
     new a w = (Raise (Exception "This class is a singleton!"),
                set_heap (heap w ++ [∅]) w)).
Proof.
  split.
  - intros a1 a2 w v w1 H.
    assert (Hv : cls_instance w1 = v).
    { unfold getInstance in H.
      apply bind_Ok_inv in H as (w0 & s0 & _ & H).
      apply bind_Ok_inv in H as (u & s1 & _ & H).
      apply bind_Ok_inv in H as (w2 & s2 & Hg & H).
      unfold get in Hg. unfold ret in H. congruence. }
    pose proof (getInstance_sets_instance a1 w) as [r Hr].
    unfold exec in Hr. rewrite H in Hr. simpl in Hr.
    assert (v = Some r) as -> by congruence.
    split; [eauto | apply getInstance_existing; exact Hr].
  - intros a w r Hw.
    unfold new, init, alloc, bind, get, modify, ret, raise. simpl.
    rewrite Hw. reflexivity.
Qed.

(** In the process of [Scenario.active] the second acquisition returns
    the instance 0 of the first, and calling the class raises. *)
Lemma getInstance_identical_new_raises_witness :
  (is_Some (Some 0) /\
   getInstance ([], ∅) Scenario.active = (Ok (Some 0), Scenario.active)) /\
  new ([], ∅) Scenario.active
  = (Raise (Exception "This class is a singleton!"),
     set_heap (heap Scenario.active ++ [∅]) Scenario.active).
Proof.
  split.
  - apply (proj1 getInstance_identical_new_raises Scenario.no_arguments ([], ∅)
             (boot Scenario.bare_host []) (Some 0) Scenario.active).
    vm_compute. reflexivity.
  - apply (proj2 getInstance_identical_new_raises ([], ∅) Scenario.active 0).
    reflexivity.
Defined.

(** C9: however the first call of [getInstance] ended, every later call
    returns the instance the class attribute then holds, whatever arguments
    it is given, and leaves the whole world (browser, page, log) as it
    was. *)
Theorem getInstance_later_calls_ignore_arguments a1 w :
  let w1 := exec (getInstance a1) w in
  exists r, cls_instance w1 = Some r /\
            forall a, getInstance a w1 = (Ok (Some r), w1).
Proof.
  intros w1. destruct (getInstance_sets_instance a1 w) as [r Hr].
  exists r. split; [exact Hr|]. intros a. apply getInstance_existing. exact Hr.
Qed.

End Singleton.

(** ** webdriver.py: pages and the browser *)

Section Tab.

Import WebDriver.

Lemma may_fail_Ok_inv w u w1 :
  may_fail w = (Ok u, w1) -> exists fs, w1 = set_faults fs w.
Proof.
  unfold may_fail. destruct w as [ci hp en br cx pg lg fs h]. simpl.
  destruct fs as [|[e|] fs]; intros [= <- <-] || intros [=].
  - exists []. reflexivity.
  - exists fs. reflexivity.
Qed.

Lemma getattr_Ok_inv self name w v w1 :
  getattr self name w = (Ok v, w1) ->
  w1 = w /\ heap w !! self ≫= (.!! name) = Some v.
Proof.
  unfold getattr, bind, get, ret, raise. simpl.
  destruct (heap w !! self ≫= (.!! name)) as [v0|]; intros [= <- <-] || intros [=].
  split; reflexivity.
Qed.

Lemma getattr_Ok self name w v :
  heap w !! self ≫= (.!! name) = Some v -> getattr self name w = (Ok v, w).
Proof. intros H. unfold getattr, bind, get, ret. simpl. rewrite H. reflexivity. Qed.

Lemma as_browser_Ok_inv v w b w1 :
  as_browser v w = (Ok b, w1) -> v = VBrowser b /\ w1 = w.
Proof. destruct v; intros [=]. subst. split; reflexivity. Qed.

Lemma reraise_not_ok {A} (msg : string) e (w0 : world) :
  is_ok (fst (bind (logger ERROR msg) (fun _ => raise (A := A) e) w0)) = false.
Proof. reflexivity. Qed.


Lemma page_close_Ok_inv p w u w1 :
  page_close p w = (Ok u, w1) ->
  heap w1 = heap w /\
  pages w1 = match pages w !! p with
             | Some pg => <[p := mk_page (pg_context pg) true (pg_viewport pg)]> (pages w)
             | None => pages w
             end.
Proof.
  unfold page_close. intros H.
  apply bind_Ok_inv in H as (u0 & w0 & Hf & H).
  apply may_fail_Ok_inv in Hf as [fs ->].
  unfold modify in H. injection H as _ <-. simpl.
  destruct (pages w !! p); split; reflexivity.
Qed.

Lemma new_page_Ok_inv b w p' w1 :
  new_page b w = (Ok p', w1) ->
  p' = length (pages w) /\ heap w1 = heap w /\
  exists c, pages w1 = pages w ++ [mk_page c false default_viewport].
Proof.
  unfold new_page, new_context. intros H.
  apply bind_Ok_inv in H as (c & w0 & Hc & H).
  apply bind_Ok_inv in Hc as (wa & wb & Hg & Hc).
  injection Hg as <- <-.
  destruct (connected b w); [| discriminate Hc].
  apply bind_Ok_inv in Hc as (u0 & w2 & Hf & Hc).
  apply may_fail_Ok_inv in Hf as [fs ->].
  unfold bind, get, modify, ret in Hc, H. simpl in Hc, H.
  injection Hc as <- <-. simpl in H. injection H as <- <-. simpl.
  split; [reflexivity|]. split; [reflexivity|]. eexists. reflexivity.
Qed.

Lemma set_viewport_size_Ok_inv p size w u w1 :
  set_viewport_size p size w = (Ok u, w1) ->
  heap w1 = heap w /\
  exists pg, pages w !! p = Some pg /\ pg_closed pg = false /\
             pages w1 = <[p := mk_page (pg_context pg) false size]> (pages w).
Proof.
  unfold set_viewport_size. intros H.
  apply bind_Ok_inv in H as (wa & wb & Hg & H). injection Hg as <- <-.
  destruct (pages w !! p) as [pg|] eqn:Hpg; [| discriminate H].
  destruct (pg_closed pg) eqn:Hc; [discriminate H |].
  apply bind_Ok_inv in H as (u0 & w2 & Hf & H).
  apply may_fail_Ok_inv in Hf as [fs ->].
  unfold modify in H. injection H as _ <-. simpl.
  split; [reflexivity|]. exists pg. auto.
Qed.

Lemma setattr_Ok_inv self name v w u w1 :
  setattr self name v w = (Ok u, w1) ->
  pages w1 = pages w /\
  heap w1 = match heap w !! self with
            | Some d => <[self := <[name := v]> d]> (heap w)
            | None => heap w
            end.
Proof.
  unfold setattr, modify. intros H. injection H as _ <-.
  destruct (heap w !! self); split; reflexivity.
Qed.

Lemma is_closed_false_inv p w :
  is_closed p w = false ->
  exists pg, pages w !! p = Some pg /\ pg_closed pg = false.
Proof.
  unfold is_closed. destruct (pages w !! p) as [pg|]; [eauto | discriminate].
Qed.

(** An open page: a reset that returns has closed it and made a new page,
    with the fixed viewport, the current one. *)
Lemma closeCurrentTab_open self p w w' :
  getDriver self w = (Ok (VPage p), w) ->
  is_closed p w = false ->
  closeCurrentTab self w = (Ok tt, w') ->
  exists p' c,
    getDriver self w' = (Ok (VPage p'), w') /\ p' <> p /\
    is_closed p w' = true /\
    pages w' !! p' = Some (mk_page c false viewport).
Proof.
  intros Hp Hopen H.
  apply getattr_Ok_inv in Hp as [_ Hp].
  unfold closeCurrentTab in H.
  rewrite (bind_Ok _ _ _ _ _ (getattr_Ok _ _ _ _ Hp)) in H.
  unfold bind at 1, get at 1 in H. rewrite Hopen in H. simpl in H.
  apply try_except_Ok_inv in H; [| intros; apply reraise_not_ok].
  apply bind_Ok_inv in H as (u1 & w1 & Hclose & H).
  apply bind_Ok_inv in H as (vb & w2 & Hb & H).
  apply getattr_Ok_inv in Hb as [-> Hb].
  apply bind_Ok_inv in H as (b & w3 & Hab & H).
  apply as_browser_Ok_inv in Hab as [-> ->].
  apply bind_Ok_inv in H as (p' & w4 & Hnew & H).
  apply bind_Ok_inv in H as (u2 & w5 & Hset & H).
  apply bind_Ok_inv in H as (u3 & w6 & Hvp & H).
  apply page_close_Ok_inv in Hclose as [Hh1 Hp1].
  apply new_page_Ok_inv in Hnew as (-> & Hh4 & c & Hp4).
  apply setattr_Ok_inv in Hset as [Hp5 Hh5].
  apply set_viewport_size_Ok_inv in Hvp as (Hh6 & pg & Hpg & _ & Hp6).
  unfold logger, modify in H. injection H as <-.
  simpl.
  apply is_closed_false_inv in Hopen as (pg0 & Hpg0 & _).
  rewrite Hpg0 in Hp1.
  destruct (heap w !! self) as [d|] eqn:Hd; [| discriminate Hp]. simpl in Hp.
  assert (Hlen : length (pages w1) = length (pages w))
    by (rewrite Hp1; apply length_insert).
  assert (Hlt : p < length (pages w)) by (eapply lookup_lt_Some; exact Hpg0).
  rewrite Hh4, Hh1, Hd in Hh5.
  exists (length (pages w1)), (pg_context pg). repeat split.
  - apply getattr_Ok. simpl. rewrite Hh6, Hh5.
    rewrite list_lookup_insert_eq by (eapply lookup_lt_Some; exact Hd).
    simpl. apply lookup_insert_eq.
  - lia.
  - unfold is_closed. simpl. rewrite Hp6, Hp5, Hp4.
    rewrite list_lookup_insert_ne by lia.
    rewrite lookup_app_l by lia. rewrite Hp1.
    rewrite list_lookup_insert_eq by lia. reflexivity.
  - simpl. rewrite Hp6, Hp5, Hp4.
    apply list_lookup_insert_eq. rewrite length_app. simpl. lia.
Qed.

(** An already closed page: the reset returns at once and the world is
    the one it found. *)
Lemma closeCurrentTab_closed self p w :
  getDriver self w = (Ok (VPage p), w) ->
  is_closed p w = true ->
  closeCurrentTab self w = (Ok tt, w).
Proof.
  intros Hp Hc. apply getattr_Ok_inv in Hp as [_ Hp].
  unfold closeCurrentTab.
  rewrite (bind_Ok _ _ _ _ _ (getattr_Ok _ _ _ _ Hp)).
  unfold bind, get. rewrite Hc. reflexivity.
Qed.


Lemma playwright_start_Ok_eq w n w1 :
  playwright_start w = (Ok n, w1) ->
  exists fs, n = length (engines w) /\
             w1 = set_engines (engines w ++ [true]) (set_faults fs w).
Proof.
  unfold playwright_start. intros H.
  apply bind_Ok_inv in H as (u0 & w0 & Hf & H).
  apply may_fail_Ok_inv in Hf as [fs ->].
  unfold bind, get, modify, ret in H. simpl in H. injection H as <- <-.
  exists fs. split; reflexivity.
Qed.

Lemma chromium_launch_Ok_eq e opts w b w1 :
  chromium_launch e opts w = (Ok b, w1) ->
  exists fs, b = length (browsers w) /\
             w1 = set_browsers (browsers w ++ [mk_browser e opts true])
                               (set_faults fs w).
Proof.
  unfold chromium_launch. intros H.
  apply bind_Ok_inv in H as (u0 & w0 & Hf & H).
  apply may_fail_Ok_inv in Hf as [fs ->].
  unfold bind, get, modify, ret in H. simpl in H. injection H as <- <-.
  exists fs. split; reflexivity.
Qed.

Lemma new_context_Ok_eq b loc tz w c w1 :
  new_context b loc tz w = (Ok c, w1) ->
  exists fs, c = length (contexts w) /\
             w1 = set_contexts (contexts w ++ [mk_context b loc tz])
                               (set_faults fs w).
Proof.
  unfold new_context. intros H.
  apply bind_Ok_inv in H as (wa & wb & Hg & H). injection Hg as <- <-.
  destruct (connected b w); [| discriminate H].
  apply bind_Ok_inv in H as (u0 & w0 & Hf & H).
  apply may_fail_Ok_inv in Hf as [fs ->].
  unfold bind, get, modify, ret in H. simpl in H. injection H as <- <-.
  exists fs. split; reflexivity.
Qed.

Lemma new_page_Ok_eq b w p w1 :
  new_page b w = (Ok p, w1) ->
  exists fs, p = length (pages w) /\
    w1 = set_pages (pages w ++ [mk_page (length (contexts w)) false default_viewport])
           (set_contexts (contexts w ++ [mk_context b None None])
              (set_faults fs w)).
Proof.
  unfold new_page. intros H.
  apply bind_Ok_inv in H as (c & w0 & Hc & H).
  apply new_context_Ok_eq in Hc as (fs & -> & ->).
  unfold bind, get, modify, ret in H. simpl in H. injection H as <- <-.
  exists fs. split; reflexivity.
Qed.

Lemma set_viewport_size_Ok_eq p size w u w1 :
  set_viewport_size p size w = (Ok u, w1) ->
  exists pg fs, pages w !! p = Some pg /\ pg_closed pg = false /\
    w1 = set_pages (<[p := mk_page (pg_context pg) false size]> (pages w))
                   (set_faults fs w).
Proof.
  unfold set_viewport_size. intros H.
  apply bind_Ok_inv in H as (wa & wb & Hg & H). injection Hg as <- <-.
  destruct (pages w !! p) as [pg|] eqn:Hpg; [| discriminate H].
  destruct (pg_closed pg) eqn:Hc; [discriminate H |].
  apply bind_Ok_inv in H as (u0 & w2 & Hf & H).
  apply may_fail_Ok_inv in Hf as [fs ->].
  unfold modify in H. injection H as _ <-.
  exists pg, fs. auto.
Qed.

Lemma setattr_Ok_eq self name v w u w1 d :
  heap w !! self = Some d ->
  setattr self name v w = (Ok u, w1) ->
  w1 = set_heap (<[self := <[name := v]> d]> (heap w)) w.
Proof.
  intros Hd. unfold setattr, modify. rewrite Hd. intros H.
  injection H as _ <-. reflexivity.
Qed.

(** What a [createDriver] that returns has done to the world. *)
Lemma createDriver_Ok_inv self a w u w1 d :
  createDriver self a w = (Ok u, w1) ->
  heap w !! self = Some d ->
  let b := length (browsers w) in
  let p := length (pages w) in
  cls_instance w1 = cls_instance w /\
  heap w1 = <[self := <["page" := VPage p]> (<["browser" := VBrowser b]> d)]> (heap w) /\
  engines w1 = engines w ++ [true] /\
  browsers w1 = browsers w ++
    [mk_browser (length (engines w)) (the_launch_options (the_host w)) true] /\
  contexts w1 = contexts w ++ [mk_context b None None; mk_context b None None] /\
  pages w1 = pages w ++ [mk_page (S (length (contexts w))) false viewport].
Proof.
  intros H Hd b p. unfold createDriver in H.
  apply bind_Ok_inv in H as (wa & wb & Hg & H). injection Hg as <- <-.
  apply bind_Ok_inv in H as (tz & w0 & Htz & H).
  unfold of_result in Htz. injection Htz as _ <-.
  apply bind_Ok_inv in H as (loc & w0 & Hloc & H).
  unfold of_result in Hloc. injection Hloc as _ <-.
  apply try_except_Ok_inv in H; [| intros; apply reraise_not_ok].
  apply bind_Ok_inv in H as (u1 & w2 & Hl1 & H).
  unfold logger, modify in Hl1. injection Hl1 as _ <-.
  apply bind_Ok_inv in H as (en & w3 & Hst & H).
  apply playwright_start_Ok_eq in Hst as (fs1 & -> & ->).
  apply bind_Ok_inv in H as (u2 & w4 & Hl2 & H).
  unfold logger, modify in Hl2. injection Hl2 as _ <-.
  apply bind_Ok_inv in H as (b0 & w5 & Hla & H).
  apply chromium_launch_Ok_eq in Hla as (fs2 & -> & ->).
  apply bind_Ok_inv in H as (u3 & w6 & Hl3 & H).
  unfold logger, modify in Hl3. injection Hl3 as _ <-.
  apply bind_Ok_inv in H as (c0 & w7 & Hcx & H).
  apply new_context_Ok_eq in Hcx as (fs3 & -> & ->).
  apply bind_Ok_inv in H as (u4 & w8 & Hl4 & H).
  unfold logger, modify in Hl4. injection Hl4 as _ <-.
  apply bind_Ok_inv in H as (u5 & w9 & Hsa & H).
  apply (setattr_Ok_eq _ _ _ _ _ _ d) in Hsa as ->; [| exact Hd].
  apply bind_Ok_inv in H as (p0 & w10 & Hnp & H).
  apply new_page_Ok_eq in Hnp as (fs4 & -> & ->).
  apply bind_Ok_inv in H as (u6 & w11 & Hsp & H).
  apply (setattr_Ok_eq _ _ _ _ _ _ (<["browser" := VBrowser b]> d)) in Hsp as ->;
    [| simpl; apply list_lookup_insert_eq; eapply lookup_lt_Some; exact Hd].
  apply bind_Ok_inv in H as (u7 & w12 & Hvp & H).
  apply set_viewport_size_Ok_eq in Hvp as (pg & fs5 & Hpg & _ & ->).
  unfold logger, modify in H. injection H as _ <-.
  simpl in Hpg. rewrite lookup_app_r in Hpg by lia.
  rewrite Nat.sub_diag in Hpg. injection Hpg as <-.
  simpl. repeat split.
  - rewrite list_insert_insert_eq. reflexivity.
  - rewrite <- app_assoc. reflexivity.
  - rewrite insert_app_r_alt by lia. rewrite Nat.sub_diag. simpl.
    rewrite length_app. simpl. rewrite Nat.add_1_r. reflexivity.
Qed.


(** What the first [getInstance] of a process has done when it returns. *)
Lemma getInstance_first_Ok_inv a w v w1 :
  cls_instance w = None ->
  getInstance a w = (Ok v, w1) ->
  let r := length (heap w) in
  let b := length (browsers w) in
  let p := length (pages w) in
  v = Some r /\
  heap w1 = heap w ++ [<["page" := VPage p]> (<["browser" := VBrowser b]> ∅)] /\
  engines w1 = engines w ++ [true] /\
  browsers w1 = browsers w ++
    [mk_browser (length (engines w)) (the_launch_options (the_host w)) true] /\
  contexts w1 = contexts w ++ [mk_context b None None; mk_context b None None] /\
  pages w1 = pages w ++ [mk_page (S (length (contexts w))) false viewport].
Proof.
  intros Hnone H r b p. unfold getInstance in H.
  apply bind_Ok_inv in H as (wa & wb & Hg & H). injection Hg as <- <-.
  rewrite Hnone in H.
  apply bind_Ok_inv in H as (u0 & w2 & Hnew & H).
  apply bind_Ok_inv in Hnew as (self & w3 & Hnew & Hset).
  unfold modify in Hset. injection Hset as _ <-.
  unfold bind, get, ret in H. simpl in H. injection H as <- <-.
  unfold new in Hnew.
  apply bind_Ok_inv in Hnew as (self' & w4 & Hal & Hnew).
  unfold alloc, bind, get, modify, ret in Hal. simpl in Hal.
  injection Hal as <- <-.
  apply bind_Ok_inv in Hnew as (u1 & w5 & Hinit & Hret).
  unfold ret in Hret. injection Hret as <- <-.
  unfold init in Hinit.
  apply bind_Ok_inv in Hinit as (wa & wb & Hg & Hinit). injection Hg as <- <-.
  simpl in Hinit. rewrite Hnone in Hinit.
  apply bind_Ok_inv in Hinit as (u2 & w6 & Hm & Hcd).
  unfold modify in Hm. injection Hm as _ <-.
  apply (createDriver_Ok_inv _ _ _ _ _ ∅) in Hcd as (_ & Hh & He & Hb & Hc & Hp);
    [| simpl; rewrite lookup_app_r by lia; rewrite Nat.sub_diag; reflexivity].
  simpl in *. split; [reflexivity|].
  split; [| auto].
  rewrite Hh. rewrite insert_app_r_alt by lia. rewrite Nat.sub_diag. reflexivity.
Qed.

Lemma browser_close_frame b w r w1 :
  browser_close b w = (r, w1) ->
  heap w1 = heap w /\ engines w1 = engines w /\
  (faults w = [] -> r = Ok tt /\ connected b w1 = false).
Proof.
  unfold browser_close, bind, may_fail, modify.
  destruct w as [ci hp en br cx pg lg fs h]. simpl.
  destruct fs as [|[e|] fs]; simpl; intros H; injection H as <- <-; simpl;
    unfold connected; simpl.
  - destruct (br !! b) as [x|] eqn:Hb; simpl;
      (split; [reflexivity|]; split; [reflexivity|]; intros _;
       split; [reflexivity|]).
    + rewrite list_lookup_insert_eq by (eapply lookup_lt_Some; exact Hb).
      reflexivity.
    + rewrite Hb. reflexivity.
  - split; [reflexivity|]. split; [reflexivity|]. discriminate.
  - destruct (br !! b); (split; [reflexivity|]; split; [reflexivity|]);
      discriminate.
Qed.

(** On an object without the attribute [playwright], [closeDriver] never
    returns: it raises, and no engine is stopped. *)
Lemma closeDriver_without_playwright self w :
  heap w !! self ≫= (.!! "playwright") = None ->
  exists e w2,
    closeDriver self w = (Raise e, w2) /\
    engines w2 = engines w /\
    (forall b, heap w !! self ≫= (.!! "browser") = Some (VBrowser b) ->
       faults w = [] ->
       e = AttributeError "playwright" /\ connected b w2 = false).
Proof.
  intros Hpw. unfold closeDriver, try_except.
  destruct (heap w !! self ≫= (.!! "browser")) as [vb|] eqn:Hb.
  - rewrite (bind_Ok _ _ _ _ _ (getattr_Ok _ _ _ _ Hb)).
    destruct vb as [n|b|p];
      try (eexists _, _; split; [reflexivity|]; split; [reflexivity|];
           intros ? [=]).
    unfold as_browser. unfold bind at 1, ret at 1.
    destruct (browser_close b w) as [r w1] eqn:Hbc.
    pose proof (browser_close_frame _ _ _ _ Hbc) as (Hh & He & Hf).
    destruct r as [[]|e].
    + rewrite (bind_Ok _ _ _ _ _ Hbc).
      assert (Hg : getattr self "playwright" w1
                   = (Raise (AttributeError "playwright"), w1)).
      { unfold getattr, bind, get, raise. simpl. rewrite Hh, Hpw. reflexivity. }
      rewrite (bind_Raise _ _ _ _ _ Hg).
      eexists _, _. split; [reflexivity|]. split; [exact He|].
      intros b' [= <-] Hfs. split; [reflexivity|].
      unfold connected. simpl. apply Hf. exact Hfs.
    + rewrite (bind_Raise _ _ _ _ _ Hbc).
      eexists _, _. split; [reflexivity|]. split; [exact He|].
      intros b' _ Hfs. destruct (Hf Hfs) as [[=] _].
  - assert (Hg : getattr self "browser" w = (Raise (AttributeError "browser"), w)).
    { unfold getattr, bind, get, raise. simpl. rewrite Hb. reflexivity. }
    rewrite (bind_Raise _ _ _ _ _ Hg).
    eexists _, _. split; [reflexivity|]. split; [reflexivity|]. intros ? [=].
Qed.

End Tab.

(** ** webdriver.py: a reset goes through when no library call fails *)

Section TabReturns.

Import WebDriver.

Lemma may_fail_ok w : faults w = [] -> may_fail w = (Ok tt, w).
Proof. unfold may_fail. intros ->. reflexivity. Qed.

Lemma page_close_ok p w pg :
  faults w = [] -> pages w !! p = Some pg ->
  page_close p w
  = (Ok tt, set_pages (<[p := mk_page (pg_context pg) true (pg_viewport pg)]> (pages w)) w).
Proof.
  intros Hf Hpg. unfold page_close.
  rewrite (bind_Ok _ _ _ _ _ (may_fail_ok w Hf)).
  unfold modify. rewrite Hpg. reflexivity.
Qed.

Lemma new_page_ok b w :
  faults w = [] -> connected b w = true ->
  new_page b w
  = (Ok (length (pages w)),
     set_pages (pages w ++ [mk_page (length (contexts w)) false default_viewport])
       (set_contexts (contexts w ++ [mk_context b None None]) w)).
Proof.
  intros Hf Hc. unfold new_page, new_context.
  unfold bind at 1. unfold bind at 1, get at 1. rewrite Hc.
  rewrite (bind_Ok _ _ _ _ _ (may_fail_ok w Hf)).
  reflexivity.
Qed.

Lemma set_viewport_size_ok p size w pg :
  faults w = [] -> pages w !! p = Some pg -> pg_closed pg = false ->
  set_viewport_size p size w
  = (Ok tt, set_pages (<[p := mk_page (pg_context pg) false size]> (pages w)) w).
Proof.
  intros Hf Hpg Hcl. unfold set_viewport_size.
  unfold bind at 1, get at 1. rewrite Hpg, Hcl.
  rewrite (bind_Ok _ _ _ _ _ (may_fail_ok w Hf)).
  reflexivity.
Qed.

(** On an open page of a connected browser, with no failure pending,
    [closeCurrentTab] returns. *)
Lemma closeCurrentTab_returns self p b w :
  getDriver self w = (Ok (VPage p), w) ->
  is_closed p w = false ->
  getattr self "browser" w = (Ok (VBrowser b), w) ->
  connected b w = true ->
  faults w = [] ->
  exists w', closeCurrentTab self w = (Ok tt, w').
Proof.
  intros Hp Hopen Hb Hconn Hf.
  apply getattr_Ok_inv in Hp as [_ Hp]. apply getattr_Ok_inv in Hb as [_ Hb].
  pose proof Hopen as Hopen'.
  apply is_closed_false_inv in Hopen' as (pg & Hpg & Hcl).
  unfold closeCurrentTab.
  rewrite (bind_Ok _ _ _ _ _ (getattr_Ok _ _ _ _ Hp)).
  unfold bind at 1, get at 1. rewrite Hopen. simpl.
  unfold try_except.
  rewrite (bind_Ok _ _ _ _ _ (page_close_ok p w pg Hf Hpg)).
  erewrite bind_Ok; [| apply getattr_Ok; simpl; exact Hb].
  unfold as_browser. unfold bind at 1, ret at 1.
  erewrite bind_Ok; [| apply new_page_ok; [exact Hf | exact Hconn]].
  unfold setattr. unfold bind at 1, modify at 1.
  destruct (heap w !! self) as [d|] eqn:Hd; [| discriminate Hp].
  simpl. rewrite Hd.
  erewrite bind_Ok.
  2:{ apply (set_viewport_size_ok _ _ _
               (mk_page (length (contexts w)) false default_viewport)); simpl.
      - exact Hf.
      - rewrite lookup_app_r by (rewrite length_insert; lia).
        rewrite length_insert, Nat.sub_diag. reflexivity.
      - reflexivity. }
  eexists. reflexivity.
Qed.

End TabReturns.

(** ** webdriver.py: the claims about pages, shutdown and configuration *)

Section Session.

Import WebDriver.

(** C1, as the code has it: when the current page is open, a
    [closeCurrentTab] that returns is followed by a [getDriver] that yields a
    new page, distinct from the prior one, open and with the viewport
    960x1080, and the prior page is closed; it does return when the browser
    is connected and no library call fails.  When the current page is
    already closed, [closeCurrentTab] changes nothing and [getDriver] still
    yields that closed page. *)
Theorem closeCurrentTab_then_getDriver self p w :
  getDriver self w = (Ok (VPage p), w) ->
  (is_closed p w = false ->
   (forall w', closeCurrentTab self w = (Ok tt, w') ->
    exists p' c,
      getDriver self w' = (Ok (VPage p'), w') /\ p' <> p /\
      is_closed p w' = true /\
      pages w' !! p' = Some (mk_page c false (960, 1080)%Z)) /\
   (forall b, getattr self "browser" w = (Ok (VBrowser b), w) ->
      connected b w = true -> faults w = [] ->
      exists w', closeCurrentTab self w = (Ok tt, w'))) /\
  (is_closed p w = true ->
   closeCurrentTab self w = (Ok tt, w) /\
   getDriver self (exec (closeCurrentTab self) w) = (Ok (VPage p), w)).
Proof.
  intros Hp. split.
  - intros Hopen. split.
    + intros w' H. exact (closeCurrentTab_open self p w w' Hp Hopen H).
    + intros b Hb Hconn Hf.
      exact (closeCurrentTab_returns self p b w Hp Hopen Hb Hconn Hf).
  - intros Hclosed.
    pose proof (closeCurrentTab_closed self p w Hp Hclosed) as H.
    split; [exact H|]. unfold exec. rewrite H. exact Hp.
Qed.

(** On the active session of [Scenario.active] the page 0 is open: the
    reset returns and page 1, with the fixed viewport, is current. *)
Lemma closeCurrentTab_then_getDriver_witness :
  let w' := exec (closeCurrentTab 0) Scenario.active in
  exists p' c,
    getDriver 0 w' = (Ok (VPage p'), w') /\ p' <> 0 /\
    is_closed 0 w' = true /\
    pages w' !! p' = Some (mk_page c false (960, 1080)%Z).
Proof.
  intros w'.
  apply (proj1 (proj1 (closeCurrentTab_then_getDriver 0 0 Scenario.active eq_refl)
                  eq_refl)).
  vm_compute. reflexivity.
Defined.

(** C1 as stated fails when the page was closed from outside: on the
    active session whose tab 0 the user closed, the prior page is page 0,
    the reset returns normally, and the page after the reset is page 0
    again, still closed. *)
Lemma closeCurrentTab_closed_page_counterexample :
  let w := close_out_of_band 0 Scenario.active in
  let w' := exec (closeCurrentTab 0) w in
  getDriver 0 w = (Ok (VPage 0), w) /\
  closeCurrentTab 0 w = (Ok tt, w') /\
  getDriver 0 w' = (Ok (VPage 0), w') /\
  is_closed 0 w' = true /\
  length (pages w') = 1.
Proof. vm_compute. repeat split. Qed.

(** C6, what the code does: after a first [getInstance] that returned,
    [closeDriver] raises whatever the libraries do, and the engine that
    construction started is still running; when [browser.close()] goes
    through, the browser is closed and the exception is the
    [AttributeError] of reading [self.playwright], which [createDriver]
    never assigned. *)
Theorem closeDriver_raises_after_getInstance a w v w1 :
  cls_instance w = None ->
  getInstance a w = (Ok v, w1) ->
  exists r e w2,
    v = Some r /\
    closeDriver r w1 = (Raise e, w2) /\
    engines w2 = engines w ++ [true] /\
    (faults w1 = [] ->
     e = AttributeError "playwright" /\
     connected (length (browsers w)) w2 = false).
Proof.
  intros Hnone H.
  apply getInstance_first_Ok_inv in H as (-> & Hh & He & _); [| exact Hnone].
  assert (Hr : heap w1 !! length (heap w)
               = Some (<["page" := VPage (length (pages w))]>
                         (<["browser" := VBrowser (length (browsers w))]> ∅))).
  { rewrite Hh. rewrite lookup_app_r by lia. rewrite Nat.sub_diag. reflexivity. }
  destruct (closeDriver_without_playwright (length (heap w)) w1)
    as (e & w2 & Hcd & He2 & Hpw).
  { rewrite Hr. reflexivity. }
  exists (length (heap w)), e, w2. split; [reflexivity|].
  split; [exact Hcd|]. split; [congruence|].
  intros Hfs. apply Hpw; [| exact Hfs]. rewrite Hr. reflexivity.
Qed.

(** The failing input: a fresh process where no library call fails. *)
Lemma closeDriver_raises_after_getInstance_witness :
  exists r e w2,
    Some 0 = Some r /\
    closeDriver r Scenario.active = (Raise e, w2) /\
    engines w2 = [] ++ [true] /\
    (faults Scenario.active = [] ->
     e = AttributeError "playwright" /\ connected 0 w2 = false).
Proof.
  apply (closeDriver_raises_after_getInstance Scenario.no_arguments
           (boot Scenario.bare_host []) (Some 0) Scenario.active).
  - reflexivity.
  - vm_compute. reflexivity.
Defined.

(** C7, what the code does: a first [getInstance] that returned has
    launched a non-headless Chromium with the sandbox switched off and the
    debug port 9222, and its page has the viewport 960x1080; the context of
    that page was created without locale and without timezone, whatever the
    host reported and also when it reported no locale: neither the detected
    values nor the fallback ["en-US"] reach the session. *)
Theorem first_getInstance_configuration a w v w1 :
  cls_instance w = None ->
  getInstance a w = (Ok v, w1) ->
  exists r b p br pg cx,
    v = Some r /\
    getattr r "browser" w1 = (Ok (VBrowser b), w1) /\
    getDriver r w1 = (Ok (VPage p), w1) /\
    browsers w1 !! b = Some br /\
    headless (br_options br) = false /\
    "--no-sandbox" ∈ args (br_options br) /\
    "--disable-setuid-sandbox" ∈ args (br_options br) /\
    "--remote-debugging-port=9222" ∈ args (br_options br) /\
    pages w1 !! p = Some pg /\
    pg_viewport pg = (960, 1080)%Z /\ pg_closed pg = false /\
    page_context w1 p = Some cx /\
    cx_locale cx = None /\ cx_timezone_id cx = None.
Proof.
  intros Hnone H.
  apply getInstance_first_Ok_inv in H as (-> & Hh & He & Hb & Hc & Hp);
    [| exact Hnone].
  assert (Hr : heap w1 !! length (heap w)
               = Some (<["page" := VPage (length (pages w))]>
                         (<["browser" := VBrowser (length (browsers w))]> ∅))).
  { rewrite Hh. rewrite lookup_app_r by lia. rewrite Nat.sub_diag. reflexivity. }
  assert (Hpg : pages w1 !! length (pages w)
                = Some (mk_page (S (length (contexts w))) false viewport)).
  { rewrite Hp. rewrite lookup_app_r by lia. rewrite Nat.sub_diag. reflexivity. }
  eexists (length (heap w)), (length (browsers w)), (length (pages w)), _, _, _.
  split; [reflexivity|].
  split; [apply getattr_Ok; rewrite Hr; reflexivity|].
  split; [apply getattr_Ok; rewrite Hr; reflexivity|].
  split; [rewrite Hb; rewrite lookup_app_r by lia; rewrite Nat.sub_diag; reflexivity|].
  split; [reflexivity|].
  split; [simpl; unfold launch_args; set_solver|].
  split; [simpl; unfold launch_args; set_solver|].
  split; [simpl; unfold launch_args; set_solver|].
  split; [exact Hpg|].
  split; [reflexivity|]. split; [reflexivity|].
  split.
  - unfold page_context. rewrite Hpg. simpl. rewrite Hc.
    rewrite lookup_app_r by lia.
    replace (S (length (contexts w)) - length (contexts w)) with 1 by lia.
    reflexivity.
  - split; reflexivity.
Qed.

(** The failing input: a host that reports no locale.  The context of the
    page is the one [browser.new_page()] made, without any locale. *)
Lemma first_getInstance_configuration_witness :
  exists r b p br pg cx,
    Some 0 = Some r /\
    getattr r "browser" Scenario.active = (Ok (VBrowser b), Scenario.active) /\
    getDriver r Scenario.active = (Ok (VPage p), Scenario.active) /\
    browsers Scenario.active !! b = Some br /\
    headless (br_options br) = false /\
    "--no-sandbox" ∈ args (br_options br) /\
    "--disable-setuid-sandbox" ∈ args (br_options br) /\
    "--remote-debugging-port=9222" ∈ args (br_options br) /\
    pages Scenario.active !! p = Some pg /\
    pg_viewport pg = (960, 1080)%Z /\ pg_closed pg = false /\
    page_context Scenario.active p = Some cx /\
    cx_locale cx = None /\ cx_timezone_id cx = None.
Proof.
  apply (first_getInstance_configuration Scenario.no_arguments
           (boot Scenario.bare_host []) (Some 0) Scenario.active).
  - reflexivity.
  - vm_compute. reflexivity.
Defined.

End Session.

(** ** oai_agent.py: identity resolution *)

Section Identity.

Import OaiAgent AgentSteps.

Context `{L : Library}.

Lemma configure_agent_resolved depth role stream s a s1 :
  resolve role stream s = (Ok a, s1) ->
  configure_agent (S depth) role stream s = (Ok a, s1).
Proof. intros H. simpl. unfold try_except. rewrite H. reflexivity. Qed.

(** The unfolding of the recursive call: a "not found" followed by a
    creation that returns leaves the whole job to the next activation. *)
Lemma configure_agent_not_found depth role stream s m s1 s2 :
  resolve role stream s = (Raise (NotFoundError m), s1) ->
  create_after_not_found role s1 = (Ok tt, s2) ->
  configure_agent (S depth) role stream s = configure_agent depth role stream s2.
Proof.
  intros Hr Hc. simpl. unfold try_except. rewrite Hr.
  unfold create_after_not_found in Hc. unfold bind in *.
  destruct (logger WARNING _ s1) as [[u|e] s1'].
  - destruct (call (create_agent role) s1') as [[u'|e] s2'].
    + injection Hc as _ <-. reflexivity.
    + discriminate Hc.
  - discriminate Hc.
Qed.

Lemma configure_agent_creation_fails depth role stream s m s1 e s2 :
  resolve role stream s = (Raise (NotFoundError m), s1) ->
  create_after_not_found role s1 = (Raise e, s2) ->
  configure_agent (S depth) role stream s = (Raise e, s2).
Proof.
  intros Hr Hc. simpl. unfold try_except. rewrite Hr.
  unfold create_after_not_found in Hc. unfold bind in *.
  destruct (logger WARNING _ s1) as [[u|e'] s1'].
  - destruct (call (create_agent role) s1') as [[u'|e'] s2'].
    + discriminate Hc.
    + injection Hc as <- <-. reflexivity.
  - injection Hc as <- <-. reflexivity.
Qed.

Lemma configure_agent_other_error depth role stream s e s1 :
  resolve role stream s = (Raise e, s1) ->
  is_not_found e = false ->
  configure_agent (S depth) role stream s
  = (Raise e,
     mk_state (lib s1)
       (log s1 ++ [(ERROR, "Unexpected error during agent configuration: " +:+ str e)])
       (stdout s1) (sent s1)).
Proof.
  intros Hr He. simpl. unfold try_except. rewrite Hr.
  destruct e; try discriminate He; reflexivity.
Qed.

(** C3, as the code has it: after any number [n] of consecutive "not
    found" signals, each followed by a creation, [configure_agent] resolves
    once more, as long as the stack has room.  It returns the agent if that
    resolution succeeds, propagates any other failure of it, and propagates
    a failure of the creation that follows one more "not found". *)
Theorem configure_agent_retries_every_not_found role stream n depth s s' :
  not_found_rounds role stream n s s' ->
  n < depth ->
  (forall a s1, resolve role stream s' = (Ok a, s1) ->
     configure_agent depth role stream s = (Ok a, s1)) /\
  (forall e s1, resolve role stream s' = (Raise e, s1) ->
     is_not_found e = false ->
     exists s2, configure_agent depth role stream s = (Raise e, s2)) /\
  (forall m s1 e s2,
     resolve role stream s' = (Raise (NotFoundError m), s1) ->
     create_after_not_found role s1 = (Raise e, s2) ->
     configure_agent depth role stream s = (Raise e, s2)).
Proof.
  intros Hrounds. revert depth.
  induction Hrounds as [s | n s m s1 s2 s3 Hr Hc _ IH]; intros depth Hlt.
  - destruct depth as [|depth]; [lia|]. split; [| split].
    + intros a s1. apply configure_agent_resolved.
    + intros e s1 Hr He. eexists.
      apply configure_agent_other_error; [exact Hr | exact He].
    + intros m s1 e s2. apply configure_agent_creation_fails.
  - destruct depth as [|depth]; [lia|].
    rewrite (configure_agent_not_found depth role stream s m s1 s2 Hr Hc).
    apply IH. lia.
Qed.

(** With no room left on the stack the activation raises
    [RecursionError]: that is the only bound on the retries. *)
Lemma configure_agent_recursion_limit role stream depth s s' :
  not_found_rounds role stream depth s s' ->
  configure_agent depth role stream s = (Raise RecursionError, s').
Proof.
  induction 1 as [s | n s m s1 s2 s3 Hr Hc _ IH].
  - reflexivity.
  - rewrite (configure_agent_not_found n role stream s m s1 s2 Hr Hc).
    exact IH.
Qed.

End Identity.

(** ** oai_agent.py: identity resolution on a concrete oracle *)

Section IdentityRuns.

Import OaiAgent AgentSteps Scenario.

(** On [twice_not_found] the first two resolutions signal "not found" and
    the two creations return. *)
Lemma twice_not_found_rounds :
  not_found_rounds (L := sim_library) "BrowsingAgent" false 2
    twice_not_found after_two_rounds.
Proof.
  eapply rounds_S; [vm_compute; reflexivity | vm_compute; reflexivity |].
  eapply rounds_S; [vm_compute; reflexivity | vm_compute; reflexivity |].
  apply rounds_O.
Qed.

Lemma configure_agent_retries_every_not_found_witness :
  exists s1,
    configure_agent (L := sim_library) 1000 "BrowsingAgent" false twice_not_found
    = (Ok "asst_BrowsingAgent", s1).
Proof.
  eexists.
  apply (proj1 (configure_agent_retries_every_not_found (L := sim_library)
                  "BrowsingAgent" false 2 1000 twice_not_found after_two_rounds
                  twice_not_found_rounds ltac:(lia))).
  vm_compute. reflexivity.
Defined.

(** C3 as stated fails on [twice_not_found]: the second resolution
    signals "not found" as well, and instead of propagating it
    [configure_agent] creates a second time, resolves a third time and
    returns the agent. *)
Lemma configure_agent_second_not_found_counterexample :
  let out := configure_agent (L := sim_library) (@recursion_limit sim_library)
               "BrowsingAgent" false twice_not_found in
  fst out = Ok "asst_BrowsingAgent" /\
  creations (lib (snd out)) = 2 /\
  resolutions (lib (snd out)) = 3.
Proof. vm_compute. repeat split. Qed.

End IdentityRuns.

(** ** oai_agent.py: the two transports *)

Section Transports.

Import OaiAgent AgentSteps Frame.

Context `{L : Library}.

(** C5: when every step of the [try] block of [get_response] returns
    (resolving the identity, registering the functions, creating the user
    proxy, the conversation), [get_response] returns [{"response": r}]
    where [r] is what [initiate_chat] returned for the prompt.  When one
    of the steps raises, whichever it is and whatever the exception,
    [get_response] logs one error record and raises
    [HTTPException(status_code=500, detail="Internal Server Error")]: the
    exception handed to the caller is this constant.  [get_response] ends
    in no other way. *)
Theorem get_response_ok_or_500 (prompt_request : PromptRequest) (s : state) :
  (forall gpt s1 s2 up s3 r x,
     configure_agent recursion_limit "BrowsingAgent" false s = (Ok gpt, s1) ->
     register_functions gpt s1 = (Ok tt, s2) ->
     create_user_proxy s2 = (Ok up, s3) ->
     initiate_chat up gpt (prompt prompt_request) (lib s3) = (Ok r, x) ->
     get_response prompt_request s
     = (Ok {[ "response" := r ]}, mk_state x (log s3) (stdout s3) (sent s3))) /\
  (forall e s0,
     configure_agent recursion_limit "BrowsingAgent" false s = (Raise e, s0) ->
     exists msg,
       get_response prompt_request s
       = (Raise (HTTPException 500 "Internal Server Error"),
          mk_state (lib s0) (log s0 ++ [(ERROR, "An error occurred: " +:+ msg)])
            (stdout s0) (sent s0))) /\
  (forall gpt s1 e s0,
     configure_agent recursion_limit "BrowsingAgent" false s = (Ok gpt, s1) ->
     register_functions gpt s1 = (Raise e, s0) ->
     exists msg,
       get_response prompt_request s
       = (Raise (HTTPException 500 "Internal Server Error"),
          mk_state (lib s0) (log s0 ++ [(ERROR, "An error occurred: " +:+ msg)])
            (stdout s0) (sent s0))) /\
  (forall gpt s1 s2 e s0,
     configure_agent recursion_limit "BrowsingAgent" false s = (Ok gpt, s1) ->
     register_functions gpt s1 = (Ok tt, s2) ->
     create_user_proxy s2 = (Raise e, s0) ->
     exists msg,
       get_response prompt_request s
       = (Raise (HTTPException 500 "Internal Server Error"),
          mk_state (lib s0) (log s0 ++ [(ERROR, "An error occurred: " +:+ msg)])
            (stdout s0) (sent s0))) /\
  (forall gpt s1 s2 up s3 e x,
     configure_agent recursion_limit "BrowsingAgent" false s = (Ok gpt, s1) ->
     register_functions gpt s1 = (Ok tt, s2) ->
     create_user_proxy s2 = (Ok up, s3) ->
     initiate_chat up gpt (prompt prompt_request) (lib s3) = (Raise e, x) ->
     exists msg,
       get_response prompt_request s
       = (Raise (HTTPException 500 "Internal Server Error"),
          mk_state x (log s3 ++ [(ERROR, "An error occurred: " +:+ msg)])
            (stdout s3) (sent s3))) /\
  (forall out s',
     get_response prompt_request s = (out, s') ->
     (exists r, out = Ok {[ "response" := r ]}) \/
     out = Raise (HTTPException 500 "Internal Server Error")).
Proof.
  assert (Hchat_run : forall up gpt (s3 : state) out x,
            initiate_chat up gpt (prompt prompt_request) (lib s3) = (out, x) ->
            call (initiate_chat up gpt (prompt prompt_request)) s3
            = (out, mk_state x (log s3) (stdout s3) (sent s3))).
  { intros up gpt s3 out x H. unfold call. rewrite H. reflexivity. }
  assert (Hfail : forall e s0,
            get_response_try prompt_request s = (Raise e, s0) ->
            exists msg,
              get_response prompt_request s
              = (Raise (HTTPException 500 "Internal Server Error"),
                 mk_state (lib s0)
                   (log s0 ++ [(ERROR, "An error occurred: " +:+ msg)])
                   (stdout s0) (sent s0))).
  { intros e s0 H. exists (str e). unfold get_response, try_except.
    rewrite H. reflexivity. }
  split; [|split; [|split; [|split; [|split]]]].
  - intros gpt s1 s2 up s3 r x Hcfg Hreg Hup Hchat.
    unfold get_response, try_except, get_response_try.
    rewrite (bind_Ok _ _ _ _ _ Hcfg), (bind_Ok _ _ _ _ _ Hreg),
      (bind_Ok _ _ _ _ _ Hup), (bind_Ok _ _ _ _ _ (Hchat_run _ _ _ _ _ Hchat)).
    reflexivity.
  - intros e s0 Hcfg. apply (Hfail e). unfold get_response_try.
    apply bind_Raise. exact Hcfg.
  - intros gpt s1 e s0 Hcfg Hreg. apply (Hfail e). unfold get_response_try.
    rewrite (bind_Ok _ _ _ _ _ Hcfg). apply bind_Raise. exact Hreg.
  - intros gpt s1 s2 e s0 Hcfg Hreg Hup. apply (Hfail e).
    unfold get_response_try.
    rewrite (bind_Ok _ _ _ _ _ Hcfg), (bind_Ok _ _ _ _ _ Hreg).
    apply bind_Raise. exact Hup.
  - intros gpt s1 s2 up s3 e x Hcfg Hreg Hup Hchat.
    apply (Hfail e (mk_state x (log s3) (stdout s3) (sent s3))).
    unfold get_response_try.
    rewrite (bind_Ok _ _ _ _ _ Hcfg), (bind_Ok _ _ _ _ _ Hreg),
      (bind_Ok _ _ _ _ _ Hup).
    apply bind_Raise. exact (Hchat_run _ _ _ _ _ Hchat).
  - intros out s'. unfold get_response, try_except.
    destruct (get_response_try prompt_request s) as [[body|e] s0] eqn:H.
    + intros [= <- <-]. left. unfold get_response_try in H.
      apply bind_Ok_inv in H as (gpt & s1 & _ & H).
      apply bind_Ok_inv in H as (u1 & s2 & _ & H).
      apply bind_Ok_inv in H as (up & s3 & _ & H).
      apply bind_Ok_inv in H as (r & s4 & _ & H).
      unfold ret in H. injection H as <- _. exists r. reflexivity.
    + intros [= <- <-]. right. reflexivity.
Qed.













End Transports.

(** ** oai_agent.py: the termination predicate *)

Section Termination.

Import OaiAgent.

Lemma prefix_iff (needle hay : string) :
  String.prefix needle hay = true <-> exists post, hay = needle +:+ post.
Proof.
  revert hay. induction needle as [|c needle IH]; intros hay; simpl.
  - split; [intros _; exists hay; reflexivity | destruct hay; reflexivity].
  - destruct hay as [|c' hay].
    + split; [discriminate | intros [post H]; discriminate H].
    + simpl. destruct (Ascii.ascii_dec c c') as [->|Hne].
      * rewrite IH. split; intros [post H]; exists post.
        -- rewrite H. reflexivity.
        -- injection H as ->. reflexivity.
      * split; [discriminate | intros [post H]; injection H as H _; congruence].
Qed.

Lemma contains_nil (needle : string) :
  contains needle "" = String.prefix needle "".
Proof. unfold contains. apply orb_false_r. Qed.

Lemma contains_cons (needle : string) c hay :
  contains needle (String c hay)
  = String.prefix needle (String c hay) || contains needle hay.
Proof. reflexivity. Qed.

(** [needle in hay] holds exactly when [needle] occurs in [hay]. *)
Lemma contains_iff (needle hay : string) :
  contains needle hay = true <->
  exists pre post, hay = pre +:+ needle +:+ post.
Proof.
  induction hay as [|c hay IH].
  - rewrite contains_nil, prefix_iff. split.
    + intros [post H]. exists "", post. exact H.
    + intros (pre & post & H). destruct pre as [|c pre]; [| discriminate H].
      exists post. exact H.
  - rewrite contains_cons, orb_true_iff, prefix_iff, IH. split.
    + intros [[post H] | (pre & post & H)].
      * exists "", post. exact H.
      * exists (String c pre), post. simpl. rewrite H. reflexivity.
    + intros (pre & post & H). destruct pre as [|c' pre].
      * left. exists post. exact H.
      * right. simpl in H. injection H as _ H. exists pre, post. exact H.
Qed.

(** The predicate handed to the user proxy answers [True] exactly on a
    message whose content is a string in which "TERMINATE" occurs. *)
Lemma is_termination_msg_iff (msg : message) :
  is_termination_msg msg = Ok true <->
  exists content pre post,
    msg !! "content" = Some (PStr content) /\
    content = pre +:+ "TERMINATE" +:+ post.
Proof.
  unfold is_termination_msg, getitem.
  destruct (msg !! "content") as [[|content]|] eqn:Hc.
  - split; [discriminate | intros (c & pre & post & [=] & _)].
  - split.
    + intros [= H]. apply contains_iff in H as (pre & post & H).
      exists content, pre, post. split; [reflexivity | exact H].
    + intros (c & pre & post & [= <-] & H). f_equal.
      apply contains_iff. exists pre, post. exact H.
  - split; [discriminate | intros (c & pre & post & [=] & _)].
Qed.

End Termination.

(** ** oai_agent.py: the transports on a concrete oracle *)

Section TransportRuns.

Import OaiAgent Scenario.

(** The conversation fails upstream: the caller sees the fixed 500 and the
    detail only reaches the log. *)
Example get_response_upstream_failure :
  let out := get_response (L := sim_library) (mk_prompt "find the weather in Paris")
               chat_fails in
  fst out = Raise (HTTPException 500 "Internal Server Error") /\
  last (log (snd out)) = Some (ERROR, "An error occurred: rate limit").
Proof. vm_compute. split; reflexivity. Qed.

(** The conversation succeeds: the caller gets what it returned. *)
Example get_response_success :
  fst (get_response (L := sim_library) (mk_prompt "find the weather in Paris")
         twice_not_found)
  = Ok {[ "response" := "It's 15 degrees. TERMINATE" ]}.
Proof. vm_compute. reflexivity. Qed.

(** Over the websocket the same failure is printed and no frame leaves;
    the success sends the one frame. *)
Example on_connect_upstream_failure :
  let out := on_connect (L := sim_library) chat_fails in
  fst out = Ok tt /\ sent (snd out) = [] /\
  last (stdout (snd out)) = Some "Exception in on_connect: rate limit".
Proof. vm_compute. repeat split. Qed.

Example on_connect_success :
  let out := on_connect (L := sim_library) twice_not_found in
  fst out = Ok tt /\ sent (snd out) = ["It's 15 degrees. TERMINATE"].
Proof. vm_compute. split; reflexivity. Qed.

End TransportRuns.

(** * Further properties of the code *)

(** ** GetConfig.py: what is loaded, what is logged *)

Section GetConfigMore.

Import GetConfig.

Variable environ : gmap string string.
Variable module_dir : string.
Variable config_list_from_json : string -> gmap string string -> result (list config).

(** X1: when [config_list_from_json], asked for the entries of
    [OAI_CONFIG_LIST] whose model is ["gpt-4-turbo-preview"], returns a
    list, the dict holds the entries of that list in their order, each
    with its ["api_key"] set to the given key, also where the entry had a
    key of its own, and with every other field as it was. *)
Theorem load_and_enrich_overwrites_only_api_key key cl lg :
  config_list_from_json (config_path module_dir) filter_dict = Ok cl ->
  exists l lg',
    load_and_enrich_config_list module_dir config_list_from_json key lg
    = (Ok {[ "config_list" := l ]}, lg') /\
    length l = length cl /\
    forall i (c : config), cl !! i = Some c ->
      exists c' : config,
        l !! i = Some c' /\
        c' !! "api_key" = Some (JStr key) /\
        forall k, k <> "api_key" -> c' !! k = c !! k.
Proof.
  intros Hload.
  unfold load_and_enrich_config_list, try_except, bind, of_result, logger,
    modify, ret.
  rewrite Hload. simpl. eexists _, _. split; [reflexivity|].
  unfold enrich. split; [apply length_fmap|].
  intros i c Hc. eexists. split.
  - rewrite list_lookup_fmap, Hc. reflexivity.
  - split; [apply lookup_insert_eq|].
    intros k Hk. apply lookup_insert_ne. congruence.
Qed.

(** X2: the constructor appends to the log and logs an error exactly
    for what is missing: the key error when [OPENAI_API_KEY] is absent or
    empty, the load error when loading raised. *)
Theorem GetConfig_init_logs_what_is_missing (lg : list log_record) :
  exists cfg recs,
    init environ module_dir config_list_from_json lg = (Ok cfg, lg ++ recs) /\
    api_key cfg = default "" (environ !! "OPENAI_API_KEY") /\
    ((ERROR, "OPENAI_API_KEY not found in environment variables") ∈ recs <->
     environ !! "OPENAI_API_KEY" = None \/ environ !! "OPENAI_API_KEY" = Some "") /\
    ((ERROR, "Failed to load or enrich the config list.") ∈ recs <->
     exists e, config_list_from_json (config_path module_dir) filter_dict = Raise e).
Proof.
  unfold init, load_and_enrich_config_list, try_except, bind, of_result,
    logger, modify, ret.
  destruct (config_list_from_json (config_path module_dir) filter_dict)
    as [cl|e] eqn:Hload;
    destruct (environ !! "OPENAI_API_KEY") as [[|c k]|] eqn:Hkey; simpl;
    eexists _, _;
    (split; [rewrite <- ?app_assoc; reflexivity|]);
    (split; [reflexivity|]); simpl;
    rewrite ?elem_of_cons, ?elem_of_nil;
    (split; split; intros H);
    repeat match goal with
           | H : _ \/ _ |- _ => destruct H as [H|H]
           | H : exists _, _ |- _ => destruct H as [? H]
           | H : False |- _ => destruct H
           | H : _ = _ |- _ => discriminate H
           end;
    first [ left; reflexivity | right; left; reflexivity
          | right; right; left; reflexivity
          | right; right; right; left; reflexivity
          | right; reflexivity | eexists; reflexivity ].
Qed.

End GetConfigMore.

Section GetConfigRuns.

Import GetConfig.

(** A file whose entry brings its own key, and an environment with
    another one: the entry ends up with the key of the environment. *)
Lemma load_and_enrich_overwrites_only_api_key_witness :
  let entry : config :=
    <["api_key" := JStr "sk-file"]> {[ "model" := JStr "gpt-4-turbo-preview" ]} in
  exists l lg',
    load_and_enrich_config_list "/app" (fun _ _ => Ok [entry]) "sk-env" []
    = (Ok {[ "config_list" := l ]}, lg') /\
    length l = length [entry] /\
    forall i (c : config), [entry] !! i = Some c ->
      exists c' : config,
        l !! i = Some c' /\
        c' !! "api_key" = Some (JStr "sk-env") /\
        forall k, k <> "api_key" -> c' !! k = c !! k.
Proof.
  intros entry.
  apply (load_and_enrich_overwrites_only_api_key "/app" (fun _ _ => Ok [entry])
           "sk-env" [entry] []).
  reflexivity.
Defined.

End GetConfigRuns.

(** ** oai_agent.py: the connection *)

Section ConnectionFacts.

Import Connection.

Variable socket : Type.
Variable send_text : string -> M socket unit.
Variable decode : list Byte.byte -> result string.

Lemma send_each_app (xs ys : list leaf) c :
  send_each socket send_text decode (xs ++ ys) c
  = bind (send_each socket send_text decode xs)
         (fun _ => send_each socket send_text decode ys) c.
Proof.
  revert c. induction xs as [|x xs IH]; intros c; simpl.
  - reflexivity.
  - unfold bind in *.
    destruct (send_leaf socket send_text decode x c) as [[u|e] c1].
    + apply IH.
    + reflexivity.
Qed.

(** Induction on a payload with the hypothesis for every part. *)
Lemma payload_parts_ind (P : payload -> Prop) :
  (forall s, P (Text s)) ->
  (forall b, P (Bytes b)) ->
  (forall ps, Forall P ps -> P (Parts ps)) ->
  forall m, P m.
Proof.
  intros HT HB HP.
  fix IH 1. intros [s|b|ps].
  - apply HT.
  - apply HB.
  - apply HP. induction ps as [|p ps IHps].
    + constructor.
    + constructor; [apply IH | exact IHps].
Qed.

Lemma send_flattens (message : payload) c :
  send socket send_text decode message c
  = send_each socket send_text decode (leaves message) c.
Proof.
  revert c. induction message as [s|b|ps IH] using payload_parts_ind; intros c.
  - simpl. unfold bind. destruct (send_text s c) as [[[]|e] c1]; reflexivity.
  - simpl. unfold bind at 2.
    destruct (bind (of_result (decode b)) (fun s => send_text s) c)
      as [[[]|e] c1]; reflexivity.
  - simpl. revert c. induction IH as [|p ps Hp _ IHps]; intros c.
    + reflexivity.
    + simpl. rewrite send_each_app. unfold bind. rewrite Hp.
      destruct (send_each socket send_text decode (leaves p) c) as [[u|e] c1].
      * apply IHps.
      * reflexivity.
Qed.

(** X3: [send] puts the strings and byte strings of a payload on the
    socket one after the other, left to right and however deep they are
    nested, each byte string decoded just before it is sent, and it stops
    at the first decoding or sending that raises.  So sending an iterable
    is sending its first parts and then, unless that raised, the rest. *)
Theorem send_is_send_each_leaf :
  (forall message x,
     send socket send_text decode message x
     = send_each socket send_text decode (leaves message) x) /\
  (forall ps qs x,
     send socket send_text decode (Parts (ps ++ qs)) x
     = bind (send socket send_text decode (Parts ps))
            (fun _ => send socket send_text decode (Parts qs)) x).
Proof.
  split.
  - exact send_flattens.
  - intros ps qs x. rewrite send_flattens. simpl leaves.
    rewrite flat_map_app, send_each_app. unfold bind.
    rewrite (send_flattens (Parts ps)). simpl leaves.
    destruct (send_each socket send_text decode (flat_map leaves ps) x)
      as [[u|e] x1]; [|reflexivity].
    rewrite (send_flattens (Parts qs)). reflexivity.
Qed.

(** What the socket has been given: the text frames, oldest first. *)
Variable frames : socket -> list string.
Hypothesis send_text_appends : forall s x,
  exists x', send_text s x = (Ok tt, x') /\ frames x' = frames x ++ [s].

Lemma send_each_frames (ls : list leaf) ts x :
  texts decode ls = Ok ts ->
  exists x', send_each socket send_text decode ls x = (Ok tt, x') /\
             frames x' = frames x ++ ts.
Proof.
  revert ts x. induction ls as [|l ls IH]; intros ts x Hts.
  - injection Hts as <-. exists x. split; [reflexivity|].
    symmetry. apply app_nil_r.
  - assert (exists t ts', (forall y, send_leaf socket send_text decode l y = send_text t y)
                          /\ texts decode ls = Ok ts' /\ ts = t :: ts')
      as (t & ts' & Hl & Hls & ->).
    { destruct l as [s|b]; simpl in Hts.
      - destruct (texts decode ls) as [ts'|e]; [|discriminate Hts].
        injection Hts as <-. exists s, ts'. split; [|split]; reflexivity.
      - destruct (decode b) as [s|e] eqn:Hb; [|discriminate Hts].
        destruct (texts decode ls) as [ts'|e]; [|discriminate Hts].
        injection Hts as <-. exists s, ts'. split; [|split]; try reflexivity.
        intros y. simpl. rewrite Hb. reflexivity. }
    destruct (send_text_appends t x) as (x1 & Hx1 & Hf1).
    destruct (IH ts' x1 Hls) as (x' & Hx' & Hf').
    exists x'. split.
    + simpl. unfold bind. rewrite Hl, Hx1. exact Hx'.
    + rewrite Hf', Hf1, <- app_assoc. reflexivity.
Qed.

(** X4: on a socket that takes every frame, a payload whose byte strings
    all decode goes out as one text frame per string or byte string, in
    order, after the frames already sent: the parts of an iterable are
    not joined into one frame. *)
Theorem send_one_frame_per_leaf (message : payload) ts x :
  texts decode (leaves message) = Ok ts ->
  exists x', send socket send_text decode message x = (Ok tt, x') /\
             frames x' = frames x ++ ts.
Proof.
  intros Hts. rewrite send_flattens.
  apply send_each_frames. exact Hts.
Qed.

End ConnectionFacts.

Section ConnectionRuns.

Import Connection.

(** An iterable inside an iterable, with a byte string among the
    strings, on a socket that already carried a frame. *)
Lemma send_one_frame_per_leaf_witness :
  exists x',
    send (list string) recording_send_text decode_ascii
      (Parts [Text "42["; Parts [Bytes [Byte.x68; Byte.x69]; Text "]"]])
      ["hello"]
    = (Ok tt, x') /\
    x' = ["hello"] ++ ["42["; "hi"; "]"].
Proof.
  apply (send_one_frame_per_leaf (list string) recording_send_text decode_ascii
           (fun x => x)).
  - intros s x. eexists. split; reflexivity.
  - reflexivity.
Defined.

End ConnectionRuns.

(** ** oai_agent.py: the websocket endpoint *)

Section HandlerFacts.

Import OaiAgent AgentSteps Frame.

Context `{L : Library}.



End HandlerFacts.

(** ** oai_agent.py: the termination predicate on the usual messages *)

Section TerminationOutcomes.

Import OaiAgent.

(** X10: on a message whose ["content"] is a string, the predicate handed
    to the user proxy returns, and it answers [True] exactly when
    ["TERMINATE"] occurs somewhere in that string, whatever is around it.
    On a message without ["content"] it raises [KeyError], and on one
    whose content is [None] it raises [TypeError]. *)
Theorem is_termination_msg_outcomes (msg : message) :
  (forall content,
     msg !! "content" = Some (PStr content) ->
     exists b,
       is_termination_msg msg = Ok b /\
       (b = true <-> exists pre post, content = pre +:+ "TERMINATE" +:+ post)) /\
  (msg !! "content" = None ->
   is_termination_msg msg = Raise (KeyError "content")) /\
  (msg !! "content" = Some PNone ->
   is_termination_msg msg
   = Raise (TypeError "argument of type 'NoneType' is not iterable")).
Proof.
  unfold is_termination_msg, getitem. split; [|split].
  - intros content ->. exists (contains "TERMINATE" content).
    split; [reflexivity | apply contains_iff].
  - intros ->. reflexivity.
  - intros ->. reflexivity.
Qed.

End TerminationOutcomes.

(** ** Reasoning about outcomes *)

Section WpRules.

Import Invariant.

Context {S : Type}.

Lemma wp_mono {A} (m : M S A) (Q Q' : A -> S -> Prop) (E E' : S -> Prop) s :
  wp m Q' E' s ->
  (forall a s', Q' a s' -> Q a s') ->
  (forall s', E' s' -> E s') ->
  wp m Q E s.
Proof.
  unfold wp. destruct (m s) as [[a|e] s']; intros H HQ HE; auto.
Qed.

Lemma wp_bind {A B} (m : M S A) (k : A -> M S B) Q E s :
  wp m (fun a s' => wp (k a) Q E s') E s -> wp (bind m k) Q E s.
Proof. unfold wp, bind. destruct (m s) as [[a|e] s']; auto. Qed.

Lemma wp_try {A} (body : M S A) (handler : exn -> M S A) Q E s :
  wp body Q (fun s' => forall e, wp (handler e) Q E s') s ->
  wp (try_except body handler) Q E s.
Proof.
  unfold wp, try_except. destruct (body s) as [[a|e] s']; intros H; auto.
  apply H.
Qed.

Lemma wp_ret {A} (a : A) (Q : A -> S -> Prop) E s : Q a s -> wp (ret a) Q E s.
Proof. auto. Qed.

Lemma wp_raise {A} e (Q : A -> S -> Prop) (E : S -> Prop) s :
  E s -> wp (raise e) Q E s.
Proof. auto. Qed.

Lemma wp_get (Q : S -> S -> Prop) E s : Q s s -> wp get Q E s.
Proof. auto. Qed.

Lemma wp_modify (f : S -> S) (Q : unit -> S -> Prop) E s :
  Q tt (f s) -> wp (modify f) Q E s.
Proof. auto. Qed.

Lemma wp_of_result {A} (r : result A) (Q : A -> S -> Prop) (E : S -> Prop) s :
  (forall a, r = Ok a -> Q a s) -> (is_ok r = false -> E s) ->
  wp (of_result r) Q E s.
Proof. unfold wp, of_result. destruct r; auto. Qed.

Lemma wp_exec {A} (m : M S A) (P : S -> Prop) s :
  wp m (fun _ => P) P s -> P (snd (m s)).
Proof. unfold wp. destruct (m s) as [[a|e] s']; auto. Qed.

End WpRules.

(** ** webdriver.py: calls that at most close pages *)

Section Calm.

Import WebDriver Invariant.

Lemma calmer_same w w' :
  cls_instance w' = cls_instance w -> heap w' = heap w ->
  length (engines w') = length (engines w) ->
  length (browsers w') = length (browsers w) ->
  pages w' = pages w ->
  calmer w w'.
Proof.
  intros Hc Hh He Hb Hp. unfold calmer, is_closed. rewrite Hp.
  split; [exact Hc|]. split; [exact Hh|]. split; [exact He|].
  split; [exact Hb|]. intros q Hq. exact Hq.
Qed.

Lemma calmer_refl w : calmer w w.
Proof. apply calmer_same; reflexivity. Qed.

Lemma calmer_trans w1 w2 w3 : calmer w1 w2 -> calmer w2 w3 -> calmer w1 w3.
Proof.
  intros (Hc1 & Hh1 & He1 & Hb1 & Hp1) (Hc2 & Hh2 & He2 & Hb2 & Hp2).
  unfold calmer. rewrite Hc2, Hh2, He2, Hb2.
  split; [exact Hc1|]. split; [exact Hh1|]. split; [exact He1|].
  split; [exact Hb1|]. intros q Hq. apply Hp2, Hp1, Hq.
Qed.

Lemma only_calms_ret {A} (a : A) : only_calms (ret a).
Proof. intros w. apply calmer_refl. Qed.

Lemma only_calms_raise {A} e : only_calms (raise (A := A) e).
Proof. intros w. apply calmer_refl. Qed.

Lemma only_calms_get : only_calms get.
Proof. intros w. apply calmer_refl. Qed.

Lemma only_calms_of_result {A} (r : result A) : only_calms (of_result r).
Proof. intros w. unfold wp, of_result. destruct r; apply calmer_refl. Qed.

Lemma only_calms_modify (f : world -> world) :
  (forall w, calmer w (f w)) -> only_calms (modify f).
Proof. intros Hf w. apply Hf. Qed.

Lemma only_calms_bind {A B} (m : wM A) (k : A -> wM B) :
  only_calms m -> (forall a, only_calms (k a)) -> only_calms (bind m k).
Proof.
  intros Hm Hk w. unfold wp, bind. specialize (Hm w). unfold wp in Hm.
  destruct (m w) as [[a|e] w1]; [|exact Hm].
  specialize (Hk a w1). unfold wp in Hk.
  destruct (k a w1) as [[b|e] w2]; exact (calmer_trans _ _ _ Hm Hk).
Qed.

Lemma only_calms_try {A} (body : wM A) (handler : exn -> wM A) :
  only_calms body -> (forall e, only_calms (handler e)) ->
  only_calms (try_except body handler).
Proof.
  intros Hb Hh w. unfold wp, try_except. specialize (Hb w). unfold wp in Hb.
  destruct (body w) as [[a|e] w1]; [exact Hb|].
  specialize (Hh e w1). unfold wp in Hh.
  destruct (handler e w1) as [[b|e'] w2]; exact (calmer_trans _ _ _ Hb Hh).
Qed.

Lemma only_calms_may_fail : only_calms may_fail.
Proof.
  intros w. unfold wp, may_fail.
  destruct (faults w) as [|[e|] fs]; apply calmer_same; reflexivity.
Qed.

Lemma only_calms_logger lv msg : only_calms (logger lv msg).
Proof. apply only_calms_modify. intros w. apply calmer_same; reflexivity. Qed.

End Calm.

Ltac calm_step :=
  first
    [ apply only_calms_bind; [| intros ?]
    | apply only_calms_try; [| intros ?]
    | apply only_calms_ret
    | apply only_calms_raise
    | apply only_calms_get
    | apply only_calms_of_result
    | apply only_calms_may_fail
    | apply only_calms_logger
    | match goal with
      | |- Invariant.only_calms (match ?x with _ => _ end) => destruct x
      | |- Invariant.only_calms (if ?x then _ else _) => destruct x
      end ].

Ltac calm := repeat calm_step.

Section CalmCalls.

Import WebDriver Invariant.

Lemma only_calms_getattr self name : only_calms (getattr self name).
Proof. unfold getattr. calm. Qed.

Lemma only_calms_as_browser v : only_calms (as_browser v).
Proof. unfold as_browser. calm. Qed.

Lemma only_calms_new_context b loc tz : only_calms (new_context b loc tz).
Proof.
  unfold new_context. calm.
  all: apply only_calms_modify; intros w0; apply calmer_same; reflexivity.
Qed.

Lemma only_calms_playwright_stop n : only_calms (playwright_stop n).
Proof.
  unfold playwright_stop. calm.
  all: apply only_calms_modify; intros w; apply calmer_same; try reflexivity.
  all: simpl; apply length_insert.
Qed.

Lemma is_closed_close p q w pg :
  pages w !! p = Some pg ->
  is_closed q (set_pages (<[p := mk_page (pg_context pg) true (pg_viewport pg)]> (pages w)) w)
  = if decide (q = p) then true else is_closed q w.
Proof.
  intros Hp. unfold is_closed. simpl. destruct (decide (q = p)) as [->|Hne].
  - rewrite list_lookup_insert_eq; [reflexivity|].
    apply lookup_lt_Some in Hp. exact Hp.
  - rewrite list_lookup_insert_ne; [reflexivity | congruence].
Qed.

Lemma calmer_close p w pg :
  pages w !! p = Some pg ->
  calmer w (set_pages (<[p := mk_page (pg_context pg) true (pg_viewport pg)]> (pages w)) w).
Proof.
  intros Hp. unfold calmer.
  split; [reflexivity|]. split; [reflexivity|]. split; [reflexivity|].
  split; [reflexivity|]. intros q Hq. rewrite (is_closed_close p q w pg Hp).
  destruct (decide (q = p)); [reflexivity | exact Hq].
Qed.

Lemma only_calms_page_close p : only_calms (page_close p).
Proof.
  unfold page_close.
  apply only_calms_bind; [apply only_calms_may_fail | intros _].
  apply only_calms_modify. intros w.
  destruct (pages w !! p) as [pg|] eqn:Hp.
  - apply calmer_close. exact Hp.
  - apply calmer_refl.
Qed.

Lemma calmer_out_of_band p w : calmer w (close_out_of_band p w).
Proof.
  unfold close_out_of_band. destruct (pages w !! p) as [pg|] eqn:Hp.
  - apply calmer_close. exact Hp.
  - apply calmer_refl.
Qed.

Lemma only_calms_set_viewport_size p size : only_calms (set_viewport_size p size).
Proof.
  intros w. unfold wp, set_viewport_size, bind, get, raise, modify, may_fail.
  destruct (pages w !! p) as [pg|] eqn:Hp; [|apply calmer_refl].
  destruct (pg_closed pg) eqn:Hopen; [apply calmer_refl|].
  assert (Hset : forall w0, pages w0 = pages w -> cls_instance w0 = cls_instance w ->
            heap w0 = heap w -> engines w0 = engines w -> browsers w0 = browsers w ->
            calmer w (set_pages (<[p := mk_page (pg_context pg) false size]> (pages w)) w0)).
  { intros w0 Hp0 Hc0 Hh0 He0 Hb0. unfold calmer, is_closed. simpl.
    rewrite Hc0, Hh0, He0, Hb0.
    split; [reflexivity|]. split; [reflexivity|]. split; [reflexivity|].
    split; [reflexivity|]. intros q.
    destruct (decide (q = p)) as [->|Hne].
    - rewrite Hp, Hopen. discriminate.
    - rewrite list_lookup_insert_ne; [auto | congruence]. }
  destruct (faults w) as [|[e|] fs]; simpl;
    first [ apply Hset; reflexivity | apply calmer_same; reflexivity ].
Qed.

Lemma only_calms_browser_close b : only_calms (browser_close b).
Proof.
  unfold browser_close.
  apply only_calms_bind; [apply only_calms_may_fail | intros _].
  apply only_calms_modify. intros w.
  destruct (browsers w !! b) as [br|]; [|apply calmer_refl].
  unfold calmer, is_closed. simpl.
  split; [reflexivity|]. split; [reflexivity|]. split; [reflexivity|].
  split; [apply length_insert|]. intros q. rewrite list_lookup_fmap.
  destruct (pages w !! q) as [pg|]; simpl; [|reflexivity].
  destruct (page_of_browser w b pg); simpl; auto.
Qed.

Lemma only_calms_closeDriver self : only_calms (closeDriver self).
Proof.
  unfold closeDriver.
  repeat first
    [ apply only_calms_getattr | apply only_calms_as_browser
    | apply only_calms_browser_close | apply only_calms_playwright_stop
    | calm_step ].
Qed.

Lemma only_calms_getDriver self : only_calms (getDriver self).
Proof. apply only_calms_getattr. Qed.

Lemma wp_only_calms {A} (m : wM A) (P : world -> Prop) w :
  only_calms m -> stable P -> P w -> wp m (fun _ => P) P w.
Proof.
  intros Hm HP Hw. specialize (Hm w). unfold wp in *.
  destruct (m w) as [[a|e] w']; exact (HP w w' Hm Hw).
Qed.

End CalmCalls.

(** ** webdriver.py: the invariant and the methods *)

Section Stable.

Import WebDriver Invariant.

Lemma attributes_ok_same w w' :
  cls_instance w' = cls_instance w -> heap w' = heap w ->
  attributes_ok w -> attributes_ok w'.
Proof. intros Hc Hh H. unfold attributes_ok. rewrite Hc, Hh. exact H. Qed.

Lemma launched_once_same w w' :
  cls_instance w' = cls_instance w ->
  length (engines w') = length (engines w) ->
  length (browsers w') = length (browsers w) ->
  launched_once w -> launched_once w'.
Proof. intros Hc He Hb H. unfold launched_once. rewrite Hc, He, Hb. exact H. Qed.

Lemma registered_same self w w' :
  cls_instance w' = cls_instance w -> heap w' = heap w ->
  registered self w -> registered self w'.
Proof. intros Hc Hh H. unfold registered. rewrite Hc, Hh. exact H. Qed.

Lemma current_same w w' p :
  cls_instance w' = cls_instance w -> heap w' = heap w ->
  current w p -> current w' p.
Proof. intros Hc Hh H. unfold current, attribute. rewrite Hc, Hh. exact H. Qed.

Lemma still_open w w' q :
  calmer w w' -> is_closed q w' = false -> is_closed q w = false.
Proof.
  intros (_ & _ & _ & _ & Hp) Hq. destruct (is_closed q w) eqn:E; [|reflexivity].
  rewrite (Hp q E) in Hq. discriminate Hq.
Qed.

Lemma stable_good : stable good.
Proof.
  intros w w' Hcalm (Ha & Hl & Ho).
  pose proof Hcalm as (Hc & Hh & He & Hb & _).
  split; [exact (attributes_ok_same w w' Hc Hh Ha)|].
  split; [exact (launched_once_same w w' Hc He Hb Hl)|].
  intros p Hp. apply (current_same w w' p Hc Hh). apply Ho.
  exact (still_open w w' p Hcalm Hp).
Qed.

Lemma stable_quiet self : stable (quiet self).
Proof.
  intros w w' Hcalm (Ha & Hl & Hr & Ho).
  pose proof Hcalm as (Hc & Hh & He & Hb & Hp).
  split; [exact (attributes_ok_same w w' Hc Hh Ha)|].
  split; [exact (launched_once_same w w' Hc He Hb Hl)|].
  split; [exact (registered_same self w w' Hc Hh Hr)|].
  intros p. apply Hp, Ho.
Qed.

Lemma stable_fresh self p : stable (fresh self p).
Proof.
  intros w w' Hcalm (Ha & Hl & Hr & Ho).
  pose proof Hcalm as (Hc & Hh & He & Hb & _).
  split; [exact (attributes_ok_same w w' Hc Hh Ha)|].
  split; [exact (launched_once_same w w' Hc He Hb Hl)|].
  split; [exact (registered_same self w w' Hc Hh Hr)|].
  intros q Hq. apply Ho. exact (still_open w w' q Hcalm Hq).
Qed.

Lemma stable_starting self : stable (starting self).
Proof.
  intros w w' Hcalm (Hq & He & Hb).
  pose proof Hcalm as (_ & _ & He' & Hb' & _).
  split; [exact (stable_quiet self w w' Hcalm Hq)|].
  rewrite He', Hb'. split; assumption.
Qed.

Lemma stable_started self : stable (started self).
Proof.
  intros w w' Hcalm (Hq & Hb).
  pose proof Hcalm as (_ & _ & _ & Hb' & _).
  split; [exact (stable_quiet self w w' Hcalm Hq)|].
  rewrite Hb'. exact Hb.
Qed.

Lemma stable_settled self : stable (settled self).
Proof.
  intros w w' Hcalm (Hg & Hr).
  pose proof Hcalm as (Hc & Hh & _).
  split; [exact (stable_good w w' Hcalm Hg)|].
  exact (registered_same self w w' Hc Hh Hr).
Qed.

Lemma quiet_good self w : quiet self w -> good w.
Proof.
  intros (Ha & Hl & _ & Ho). split; [exact Ha|]. split; [exact Hl|].
  intros p Hp. rewrite (Ho p) in Hp. discriminate Hp.
Qed.

(** The attribute [page] of an object says which page can be open. *)
Lemma open_is_page self p q w :
  good w -> attribute w self "page" = Some (VPage p) ->
  is_closed q w = false -> q = p.
Proof.
  intros (Ha & _ & Ho) Hattr Hq.
  destruct (Ho q Hq) as (self' & Hcls & Hattr').
  unfold attribute in Hattr.
  destruct (heap w !! self) as [d|] eqn:Hd; [|discriminate Hattr].
  simpl in Hattr. destruct (Ha self d Hd) as (_ & Hreg & _).
  assert (Hne : d <> ∅).
  { intros ->. rewrite lookup_empty in Hattr. discriminate Hattr. }
  specialize (Hreg Hne). assert (self' = self) as -> by congruence.
  unfold attribute in Hattr'. rewrite Hd in Hattr'. simpl in Hattr'.
  congruence.
Qed.

Lemma attribute_registered self name v w :
  good w -> attribute w self name = Some v -> registered self w.
Proof.
  intros (Ha & _ & _) Hattr. unfold attribute in Hattr.
  destruct (heap w !! self) as [d|] eqn:Hd; [|discriminate Hattr].
  simpl in Hattr. destruct (Ha self d Hd) as (_ & Hreg & _).
  split; [|eauto]. apply Hreg. intros ->.
  rewrite lookup_empty in Hattr. discriminate Hattr.
Qed.

Lemma quiet_after_close self p w :
  good w -> attribute w self "page" = Some (VPage p) ->
  quiet self
    (match pages w !! p with
     | Some pg => set_pages
         (<[p := mk_page (pg_context pg) true (pg_viewport pg)]> (pages w)) w
     | None => w
     end).
Proof.
  intros Hg Hattr.
  pose proof (attribute_registered self "page" _ w Hg Hattr) as Hreg.
  pose proof Hg as (Ha & Hl & _).
  destruct (pages w !! p) as [pg|] eqn:Hp.
  - split; [exact Ha|]. split; [exact Hl|]. split; [exact Hreg|].
    intros q. rewrite (is_closed_close p q w pg Hp).
    destruct (decide (q = p)) as [->|Hne]; [reflexivity|].
    destruct (is_closed q w) eqn:Hq; [reflexivity|].
    elim Hne. exact (open_is_page self p q w Hg Hattr Hq).
  - split; [exact Ha|]. split; [exact Hl|]. split; [exact Hreg|].
    intros q. destruct (is_closed q w) eqn:Hq; [reflexivity|].
    pose proof (open_is_page self p q w Hg Hattr Hq) as ->.
    unfold is_closed in Hq. rewrite Hp in Hq. discriminate Hq.
Qed.

Lemma fresh_after_new_page self w pg :
  quiet self w ->
  fresh self (length (pages w)) (set_pages (pages w ++ [pg]) w).
Proof.
  intros (Ha & Hl & Hr & Ho).
  split; [exact Ha|]. split; [exact Hl|]. split; [exact Hr|].
  intros q Hq. unfold is_closed in Hq. simpl in Hq.
  destruct (decide (q < length (pages w))) as [Hlt|Hge].
  - rewrite lookup_app_l in Hq by exact Hlt.
    specialize (Ho q). unfold is_closed in Ho. rewrite Ho in Hq. discriminate Hq.
  - destruct (decide (q = length (pages w))) as [->|Hne]; [reflexivity|].
    rewrite lookup_ge_None_2 in Hq; [discriminate Hq|].
    rewrite length_app. simpl. lia.
Qed.

Lemma settled_after_setattr_page self p w d :
  fresh self p w -> heap w !! self = Some d ->
  settled self (set_heap (<[self := <["page" := VPage p]> d]> (heap w)) w).
Proof.
  intros (Ha & Hl & (Hcls & _) & Ho) Hd.
  assert (Hlt : self < length (heap w)) by (apply lookup_lt_Some in Hd; exact Hd).
  split; [split; [|split] | split].
  - intros s d' Hd'. simpl in Hd'. destruct (decide (s = self)) as [->|Hne].
    + rewrite list_lookup_insert_eq in Hd' by exact Hlt.
      injection Hd' as <-. destruct (Ha self d Hd) as (Hpw & _ & Hpg).
      split; [rewrite lookup_insert_ne by discriminate; exact Hpw|].
      split; [intros _; exact Hcls|].
      intros v. rewrite lookup_insert_eq. intros [= <-]. eauto.
    + rewrite list_lookup_insert_ne in Hd' by congruence.
      exact (Ha s d' Hd').
  - exact Hl.
  - intros q Hq. rewrite (Ho q Hq). exists self. split; [exact Hcls|].
    unfold attribute. simpl. rewrite list_lookup_insert_eq by exact Hlt.
    simpl. apply lookup_insert_eq.
  - exact Hcls.
  - simpl. rewrite list_lookup_insert_eq by exact Hlt. eauto.
Qed.

Lemma quiet_after_setattr_browser self b w d :
  quiet self w -> heap w !! self = Some d ->
  quiet self (set_heap (<[self := <["browser" := VBrowser b]> d]> (heap w)) w).
Proof.
  intros (Ha & Hl & (Hcls & _) & Ho) Hd.
  assert (Hlt : self < length (heap w)) by (apply lookup_lt_Some in Hd; exact Hd).
  split; [|split; [|split; [split|]]].
  - intros s d' Hd'. simpl in Hd'. destruct (decide (s = self)) as [->|Hne].
    + rewrite list_lookup_insert_eq in Hd' by exact Hlt.
      injection Hd' as <-. destruct (Ha self d Hd) as (Hpw & _ & Hpg).
      split; [rewrite lookup_insert_ne by discriminate; exact Hpw|].
      split; [intros _; exact Hcls|].
      intros v. rewrite lookup_insert_ne by discriminate. apply Hpg.
    + rewrite list_lookup_insert_ne in Hd' by congruence.
      exact (Ha s d' Hd').
  - exact Hl.
  - exact Hcls.
  - simpl. rewrite list_lookup_insert_eq by exact Hlt. eauto.
  - exact Ho.
Qed.

Lemma good_after_alloc w :
  good w -> good (set_heap (heap w ++ [∅]) w).
Proof.
  intros (Ha & Hl & Ho). split; [|split].
  - intros s d Hd. simpl in Hd.
    destruct (decide (s < length (heap w))) as [Hlt|Hge].
    + rewrite lookup_app_l in Hd by exact Hlt. exact (Ha s d Hd).
    + rewrite lookup_app_r in Hd by lia.
      destruct (s - length (heap w)) as [|n]; [|destruct n; discriminate Hd].
      injection Hd as <-. split; [apply lookup_empty|].
      split; [intros Hne; elim Hne; reflexivity|].
      intros v. rewrite lookup_empty. discriminate.
  - exact Hl.
  - intros p Hp. destruct (Ho p Hp) as (self & Hcls & Hattr).
    exists self. split; [exact Hcls|]. unfold attribute in *. simpl.
    destruct (heap w !! self) as [d|] eqn:Hd; [|discriminate Hattr].
    rewrite lookup_app_l by (apply lookup_lt_Some in Hd; exact Hd).
    rewrite Hd. exact Hattr.
Qed.

Lemma starting_after_register self w :
  good w -> cls_instance w = None -> heap w !! self = Some ∅ ->
  starting self (set_cls_instance (Some self) w).
Proof.
  intros (Ha & (Hnone & _) & Ho) Hcls Hd.
  destruct (Hnone Hcls) as (He & Hb).
  assert (Hempty : forall s d, heap w !! s = Some d -> d = ∅).
  { intros s d Hs. destruct (Ha s d Hs) as (_ & Hreg & _).
    destruct (decide (d = ∅)) as [->|Hne]; [reflexivity|].
    specialize (Hreg Hne). congruence. }
  split; [split; [|split; [|split; [split|]]] | split].
  - intros s d Hs. simpl in Hs. rewrite (Hempty s d Hs).
    split; [apply lookup_empty|].
    split; [intros Hne; elim Hne; reflexivity|].
    intros v. rewrite lookup_empty. discriminate.
  - split; [discriminate|]. simpl. lia.
  - reflexivity.
  - simpl. eauto.
  - intros p. destruct (is_closed p (set_cls_instance (Some self) w)) eqn:Hp;
      [reflexivity|].
    destruct (Ho p Hp) as (s & Hs & _). congruence.
  - exact He.
  - exact Hb.
Qed.

End Stable.

Section Methods.

Import WebDriver Invariant.

Lemma wp_getattr self name w :
  wp (getattr self name)
     (fun v w' => w' = w /\ attribute w self name = Some v)
     (fun w' => w' = w) w.
Proof.
  unfold wp, getattr, bind, get, ret, raise, attribute.
  destruct (heap w !! self ≫= (.!! name)); auto.
Qed.

(** A step that at most closes pages keeps the assertion [P]. *)
Lemma wp_calm_step {A B} (m : wM A) (k : A -> wM B) (P : world -> Prop) Q (E : world -> Prop) w :
  only_calms m -> stable P -> P w ->
  (forall w', P w' -> E w') ->
  (forall a w', P w' -> wp (k a) Q E w') ->
  wp (bind m k) Q E w.
Proof.
  intros Hm HP Hw HE Hk. apply wp_bind.
  eapply wp_mono; [exact (wp_only_calms m P w Hm HP Hw) | |]; simpl; auto.
Qed.

Lemma wp_page_close self p w :
  good w -> attribute w self "page" = Some (VPage p) ->
  wp (page_close p) (fun _ => quiet self) good w.
Proof.
  intros Hg Hattr. unfold wp, page_close, bind, may_fail, modify.
  destruct (faults w) as [|[e|] fs]; simpl.
  - exact (quiet_after_close self p w Hg Hattr).
  - exact Hg.
  - exact (quiet_after_close self p (set_faults fs w) Hg Hattr).
Qed.

Lemma wp_new_page self b w :
  quiet self w ->
  wp (new_page b) (fun p => fresh self p) (quiet self) w.
Proof.
  intros Hq. unfold new_page.
  apply (wp_calm_step _ _ (quiet self));
    [apply only_calms_new_context | apply stable_quiet | exact Hq | auto |].
  intros c w1 Hq1. unfold wp, bind, get, modify, ret. simpl.
  apply fresh_after_new_page. exact Hq1.
Qed.

Lemma wp_setattr_page self p (E : world -> Prop) w :
  fresh self p w ->
  wp (setattr self "page" (VPage p)) (fun _ => settled self) E w.
Proof.
  intros Hf. unfold setattr. apply wp_modify.
  pose proof Hf as (_ & _ & (_ & [d Hd]) & _). rewrite Hd.
  apply settled_after_setattr_page; assumption.
Qed.

Lemma wp_setattr_browser self b (E : world -> Prop) w :
  quiet self w ->
  wp (setattr self "browser" (VBrowser b)) (fun _ => quiet self) E w.
Proof.
  intros Hq. unfold setattr. apply wp_modify.
  pose proof Hq as (_ & _ & (_ & [d Hd]) & _). rewrite Hd.
  apply quiet_after_setattr_browser; assumption.
Qed.

Lemma wp_playwright_start self w :
  starting self w ->
  wp playwright_start (fun _ => started self) (starting self) w.
Proof.
  intros Hs. pose proof Hs as ((Ha & Hl & Hr & Ho) & He & Hb).
  assert (Hok : forall w0,
            cls_instance w0 = cls_instance w -> heap w0 = heap w ->
            engines w0 = engines w -> browsers w0 = browsers w ->
            pages w0 = pages w ->
            started self (set_engines (engines w ++ [true]) w0)).
  { intros w0 Hc0 Hh0 He0 Hb0 Hp0.
    split; [split; [|split; [|split]] |].
    - apply (attributes_ok_same w); [exact Hc0 | exact Hh0 | exact Ha].
    - destruct Hr as (Hcls & _). split.
      + simpl. rewrite Hc0, Hcls. discriminate.
      + simpl. rewrite length_app, Hb0. simpl. lia.
    - apply (registered_same self w); [exact Hc0 | exact Hh0 | exact Hr].
    - intros p. unfold is_closed. simpl. rewrite Hp0. apply Ho.
    - simpl. rewrite Hb0. exact Hb. }
  unfold wp, playwright_start, bind, may_fail, get, modify, ret.
  destruct (faults w) as [|[e|] fs]; simpl;
    first [ exact Hs | apply Hok; reflexivity ].
Qed.

Lemma wp_chromium_launch self n opts w :
  started self w ->
  wp (chromium_launch n opts) (fun _ => quiet self) (started self) w.
Proof.
  intros Hs. pose proof Hs as ((Ha & Hl & Hr & Ho) & Hb).
  assert (Hok : forall w0 br,
            cls_instance w0 = cls_instance w -> heap w0 = heap w ->
            engines w0 = engines w -> browsers w0 = browsers w ->
            pages w0 = pages w ->
            quiet self (set_browsers (browsers w ++ [br]) w0)).
  { intros w0 br Hc0 Hh0 He0 Hb0 Hp0.
    split; [|split; [|split]].
    - apply (attributes_ok_same w); [exact Hc0 | exact Hh0 | exact Ha].
    - destruct Hr as (Hcls & _). destruct Hl as (_ & Hle & _). split.
      + simpl. rewrite Hc0, Hcls. discriminate.
      + simpl. rewrite length_app, He0. simpl. lia.
    - apply (registered_same self w); [exact Hc0 | exact Hh0 | exact Hr].
    - intros p. unfold is_closed. simpl. rewrite Hp0. apply Ho. }
  unfold wp, chromium_launch, bind, may_fail, get, modify, ret.
  destruct (faults w) as [|[e|] fs]; simpl;
    first [ exact Hs | apply Hok; reflexivity ].
Qed.

Lemma wp_alloc w :
  good w ->
  wp alloc (fun self w' => good w' /\ heap w' !! self = Some ∅) good w.
Proof.
  intros Hg. unfold wp, alloc, bind, get, modify, ret. simpl.
  split; [exact (good_after_alloc w Hg)|].
  rewrite lookup_app_r by lia. rewrite Nat.sub_diag. reflexivity.
Qed.

Lemma settled_good self w : settled self w -> good w.
Proof. intros (Hg & _). exact Hg. Qed.

Lemma starting_good self w : starting self w -> good w.
Proof. intros (Hq & _). exact (quiet_good self w Hq). Qed.

Lemma started_good self w : started self w -> good w.
Proof. intros (Hq & _). exact (quiet_good self w Hq). Qed.

Lemma starting_started self w : starting self w -> started self w.
Proof. intros (Hq & _ & Hb). split; assumption. Qed.

(** The handler of the three methods: log and raise again. *)
Lemma wp_reraise {A} msg e (Q : A -> world -> Prop) w :
  good w -> wp (logger ERROR msg ;;; raise e) Q good w.
Proof. intros Hg. exact Hg. Qed.

Lemma wp_createDriver self a w :
  starting self w ->
  wp (createDriver self a) (fun _ => settled self) good w.
Proof.
  intros Hs. unfold createDriver.
  apply wp_bind, wp_get.
  apply wp_bind, wp_of_result; [intros tz _ | intros _; exact (starting_good _ _ Hs)].
  apply wp_bind, wp_of_result; [intros loc _ | intros _; exact (starting_good _ _ Hs)].
  apply wp_try.
  eapply wp_mono with (E' := good);
    [| intros u w' H; exact H | intros w' Hg e; apply wp_reraise; exact Hg].
  apply (wp_calm_step _ _ (starting self));
    [apply only_calms_logger | apply stable_starting | exact Hs
    | apply starting_good |].
  intros _ w1 H1.
  apply wp_bind. eapply wp_mono;
    [exact (wp_playwright_start self w1 H1) | | apply starting_good].
  simpl. intros engine w2 H2.
  apply (wp_calm_step _ _ (started self));
    [apply only_calms_logger | apply stable_started | exact H2
    | apply started_good |].
  intros _ w3 H3.
  apply wp_bind. eapply wp_mono;
    [exact (wp_chromium_launch self _ _ w3 H3) | | apply started_good].
  simpl. intros b w4 H4.
  apply (wp_calm_step _ _ (quiet self));
    [apply only_calms_logger | apply stable_quiet | exact H4
    | apply quiet_good |].
  intros _ w5 H5.
  apply (wp_calm_step _ _ (quiet self));
    [apply only_calms_new_context | apply stable_quiet | exact H5
    | apply quiet_good |].
  intros c w6 H6.
  apply (wp_calm_step _ _ (quiet self));
    [apply only_calms_logger | apply stable_quiet | exact H6
    | apply quiet_good |].
  intros _ w7 H7.
  apply wp_bind. eapply wp_mono;
    [exact (wp_setattr_browser self b good w7 H7) | | auto].
  simpl. intros _ w8 H8.
  apply wp_bind. eapply wp_mono;
    [exact (wp_new_page self b w8 H8) | | apply quiet_good].
  simpl. intros p w9 H9.
  apply wp_bind. eapply wp_mono;
    [exact (wp_setattr_page self p good w9 H9) | | auto].
  simpl. intros _ w10 H10.
  apply (wp_calm_step _ _ (settled self));
    [apply only_calms_set_viewport_size | apply stable_settled | exact H10
    | apply settled_good |].
  intros _ w11 H11.
  exact (wp_only_calms _ (settled self) w11 (only_calms_logger _ _)
           (stable_settled self) H11).
Qed.

Lemma wp_init self a w :
  good w -> heap w !! self = Some ∅ ->
  wp (init self a) (fun _ => settled self) good w.
Proof.
  intros Hg Hd. unfold init. apply wp_bind, wp_get.
  destruct (cls_instance w) as [r|] eqn:Hcls.
  - apply wp_raise. exact Hg.
  - apply wp_bind, wp_modify. apply wp_createDriver.
    exact (starting_after_register self w Hg Hcls Hd).
Qed.

Lemma wp_new a w :
  good w -> wp (new a) (fun self => settled self) good w.
Proof.
  intros Hg. unfold new. apply wp_bind.
  eapply wp_mono; [exact (wp_alloc w Hg) | | auto].
  simpl. intros self w1 (Hg1 & Hd1).
  apply wp_bind. eapply wp_mono; [exact (wp_init self a w1 Hg1 Hd1) | | auto].
  simpl. intros _ w2 H2. exact H2.
Qed.

Lemma wp_getInstance a w :
  good w -> wp (getInstance a) (fun _ => good) good w.
Proof.
  intros Hg. unfold getInstance. apply wp_bind, wp_get.
  destruct (cls_instance w) as [r|] eqn:Hcls.
  - exact Hg.
  - apply wp_bind. apply wp_bind.
    eapply wp_mono; [exact (wp_new a w Hg) | | auto].
    simpl. intros self w1 ((Ha & Hl & Ho) & (Hc & Hr)).
    unfold wp, modify, bind, get, ret. simpl.
    split; [|split].
    + intros s d Hs. destruct (Ha s d Hs) as (H1 & H2 & H3).
      split; [exact H1|]. split; [|exact H3].
      intros Hne. simpl. rewrite <- Hc. exact (H2 Hne).
    + destruct Hl as (_ & Hl). split; [discriminate | exact Hl].
    + intros p Hp. destruct (Ho p Hp) as (s & Hs & Hattr).
      exists s. split; [simpl; congruence | exact Hattr].
Qed.

Lemma wp_closeCurrentTab self w :
  good w -> wp (closeCurrentTab self) (fun _ => good) good w.
Proof.
  intros Hg. unfold closeCurrentTab. apply wp_bind.
  eapply wp_mono; [apply wp_getattr | | intros w' ->; exact Hg].
  simpl. intros v w' (-> & Hattr). apply wp_bind, wp_get.
  destruct v as [n|b|p]; try (apply wp_raise; exact Hg).
  destruct (is_closed p w) eqn:Hopen; simpl; [exact Hg|].
  apply wp_try.
  eapply wp_mono with (E' := good);
    [| intros u w' H; exact H | intros w' Hg' e; apply wp_reraise; exact Hg'].
  apply wp_bind. eapply wp_mono;
    [exact (wp_page_close self p w Hg Hattr) | | auto].
  simpl. intros _ w1 H1.
  apply (wp_calm_step _ _ (quiet self));
    [apply only_calms_getattr | apply stable_quiet | exact H1
    | apply quiet_good |].
  intros vb w2 H2.
  apply (wp_calm_step _ _ (quiet self));
    [apply only_calms_as_browser | apply stable_quiet | exact H2
    | apply quiet_good |].
  intros b w3 H3.
  apply wp_bind. eapply wp_mono;
    [exact (wp_new_page self b w3 H3) | | apply quiet_good].
  simpl. intros p' w4 H4.
  apply wp_bind. eapply wp_mono;
    [exact (wp_setattr_page self p' good w4 H4) | | auto].
  simpl. intros _ w5 H5.
  apply (wp_calm_step _ _ good);
    [apply only_calms_set_viewport_size | apply stable_good
    | exact (settled_good _ _ H5) | auto |].
  intros _ w6 H6.
  exact (wp_only_calms _ good w6 (only_calms_logger _ _) stable_good H6).
Qed.

Lemma good_boot h fs : good (boot h fs).
Proof.
  split; [|split].
  - intros self d Hd. simpl in Hd. rewrite lookup_nil in Hd. discriminate Hd.
  - split; [intros _; split; reflexivity | simpl; lia].
  - intros p Hp. unfold is_closed in Hp. simpl in Hp. discriminate Hp.
Qed.

Lemma good_step w x : good w -> good (Process.step w x).
Proof.
  intros Hg. destruct x as [a|a|self|self|self|p]; simpl; unfold exec.
  - exact (wp_exec _ good w (wp_getInstance a w Hg)).
  - apply (wp_exec _ good w). eapply wp_mono; [exact (wp_new a w Hg) | | auto].
    intros self w'. apply settled_good.
  - exact (wp_exec _ good w
             (wp_only_calms _ good w (only_calms_getDriver self) stable_good Hg)).
  - exact (wp_exec _ good w
             (wp_only_calms _ good w (only_calms_closeDriver self) stable_good Hg)).
  - exact (wp_exec _ good w (wp_closeCurrentTab self w Hg)).
  - exact (stable_good w _ (calmer_out_of_band p w) Hg).
Qed.

Lemma good_run h fs xs : good (Process.run h fs xs).
Proof.
  unfold Process.run. generalize (good_boot h fs).
  generalize (boot h fs). induction xs as [|x xs IH]; intros w Hg; simpl.
  - exact Hg.
  - apply IH. exact (good_step w x Hg).
Qed.

End Methods.

(** ** webdriver.py: every world a process can reach *)

Section Reachable.

Import WebDriver Invariant Process.

(** X11: whatever a process does with the class, in whatever order and
    whatever fails on the way, at most one Playwright engine is started and
    at most one browser is launched. *)
Theorem process_launches_at_most_one_browser h fs (xs : list action) :
  length (engines (run h fs xs)) <= 1 /\
  length (browsers (run h fs xs)) <= 1.
Proof.
  destruct (good_run h fs xs) as (_ & (_ & Hlen) & _). exact Hlen.
Qed.

(** X12: no method ever sets [self.playwright], so in every world a
    process can reach [closeDriver] raises, on whatever object it is
    called, and leaves every started engine as it was. *)
Theorem closeDriver_never_returns h fs (xs : list action) self :
  exists e w',
    closeDriver self (run h fs xs) = (Raise e, w') /\
    engines w' = engines (run h fs xs).
Proof.
  destruct (good_run h fs xs) as (Ha & _ & _).
  destruct (closeDriver_without_playwright self (run h fs xs))
    as (e & w' & Hclose & Hengines & _).
  - destruct (heap (run h fs xs) !! self) as [d|] eqn:Hd; [|reflexivity].
    simpl. exact (proj1 (Ha self d Hd)).
  - exists e, w'. split; [exact Hclose | exact Hengines].
Qed.

(** X13: in every world a process reaches by calls of [getInstance],
    of the class, of [getDriver], of [closeDriver] and of
    [closeCurrentTab], with tabs closing from outside in between (no
    direct call of [createDriver], no tab opened from outside), a page
    that is open is the page [getDriver] returns on the registered
    instance; so at most one page is open at any time, and a reset never
    leaves a second tab behind. *)
Theorem open_page_is_the_current_page h fs (xs : list action) p :
  is_closed p (run h fs xs) = false ->
  (exists self,
     cls_instance (run h fs xs) = Some self /\
     getDriver self (run h fs xs) = (Ok (VPage p), run h fs xs)) /\
  forall q, is_closed q (run h fs xs) = false -> q = p.
Proof.
  intros Hp. pose proof (good_run h fs xs) as Hg.
  destruct Hg as (Ha & Hl & Ho). destruct (Ho p Hp) as (self & Hcls & Hattr).
  split.
  - exists self. split; [exact Hcls|]. apply getattr_Ok. exact Hattr.
  - intros q Hq.
    exact (open_is_page self p q _ (conj Ha (conj Hl Ho)) Hattr Hq).
Qed.

End Reachable.

Section ReachableRuns.

Import WebDriver Process.

(** After the first acquisition and one reset, page 1 is open: it is the
    current page, and page 0 is closed. *)
Lemma open_page_is_the_current_page_witness :
  let w := run Scenario.bare_host []
             [GetInstance Scenario.no_arguments; CloseCurrentTab 0] in
  (exists self,
     cls_instance w = Some self /\ getDriver self w = (Ok (VPage 1), w)) /\
  forall q, is_closed q w = false -> q = 1.
Proof.
  apply (open_page_is_the_current_page Scenario.bare_host []
           [GetInstance Scenario.no_arguments; CloseCurrentTab 0] 1).
  vm_compute. reflexivity.
Defined.

End ReachableRuns.

(** ** webdriver.py: what a reset leaves alone *)

Section TabFrame.

Import WebDriver Frame.

(** A part of the world that does not depend on the script of outcomes,
    the log, the contexts, the pages and the attribute dicts. *)
Variable T : Type.
Variable proj : world -> T.
Hypothesis proj_faults : forall v w, proj (set_faults v w) = proj w.
Hypothesis proj_log : forall v w, proj (set_log v w) = proj w.
Hypothesis proj_contexts : forall v w, proj (set_contexts v w) = proj w.
Hypothesis proj_pages : forall v w, proj (set_pages v w) = proj w.
Hypothesis proj_heap : forall v w, proj (set_heap v w) = proj w.

Lemma keeps_tab_may_fail : keeps proj may_fail.
Proof.
  intros w. unfold may_fail.
  destruct (faults w) as [|[e|] fs]; simpl; rewrite ?proj_faults; reflexivity.
Qed.

Lemma keeps_tab_logger lv msg : keeps proj (logger lv msg).
Proof. apply keeps_modify. intros w. apply proj_log. Qed.

Lemma keeps_tab_getattr self name : keeps proj (getattr self name).
Proof. unfold getattr. frame. Qed.

Lemma keeps_tab_as_browser v : keeps proj (as_browser v).
Proof. unfold as_browser. frame. Qed.

Lemma keeps_tab_setattr self name v : keeps proj (setattr self name v).
Proof.
  apply keeps_modify. intros w.
  destruct (heap w !! self); [apply proj_heap | reflexivity].
Qed.

Lemma keeps_tab_page_close p : keeps proj (page_close p).
Proof.
  apply keeps_bind; [apply keeps_tab_may_fail | intros _].
  apply keeps_modify. intros w.
  destruct (pages w !! p); [apply proj_pages | reflexivity].
Qed.

Lemma keeps_tab_new_context b loc tz : keeps proj (new_context b loc tz).
Proof.
  unfold new_context.
  apply keeps_bind; [apply keeps_get | intros w].
  destruct (connected b w); [|apply keeps_raise].
  apply keeps_bind; [apply keeps_tab_may_fail | intros _].
  apply keeps_bind; [apply keeps_get | intros w0].
  apply keeps_bind; [|intros _; apply keeps_ret].
  apply keeps_modify. intros w1. apply proj_contexts.
Qed.

Lemma keeps_tab_new_page b : keeps proj (new_page b).
Proof.
  unfold new_page.
  apply keeps_bind; [apply keeps_tab_new_context | intros c].
  apply keeps_bind; [apply keeps_get | intros w].
  apply keeps_bind; [|intros _; apply keeps_ret].
  apply keeps_modify. intros w1. apply proj_pages.
Qed.

Lemma keeps_tab_set_viewport_size p size : keeps proj (set_viewport_size p size).
Proof.
  unfold set_viewport_size.
  apply keeps_bind; [apply keeps_get | intros w].
  destruct (pages w !! p) as [pg|]; [|apply keeps_raise].
  destruct (pg_closed pg); [apply keeps_raise|].
  apply keeps_bind; [apply keeps_tab_may_fail | intros _].
  apply keeps_modify. intros w1. apply proj_pages.
Qed.

Lemma keeps_tab_closeCurrentTab self : keeps proj (closeCurrentTab self).
Proof.
  unfold closeCurrentTab.
  apply keeps_bind; [apply keeps_tab_getattr | intros v].
  apply keeps_bind; [apply keeps_get | intros w].
  destruct v as [n|b|p]; try apply keeps_raise.
  destruct (negb (is_closed p w)); [|apply keeps_ret].
  apply keeps_try.
  - apply keeps_bind; [apply keeps_tab_page_close | intros _].
    apply keeps_bind; [apply keeps_tab_getattr | intros vb].
    apply keeps_bind; [apply keeps_tab_as_browser | intros b].
    apply keeps_bind; [apply keeps_tab_new_page | intros p'].
    apply keeps_bind; [apply keeps_tab_setattr | intros _].
    apply keeps_bind; [apply keeps_tab_set_viewport_size | intros _].
    apply keeps_tab_logger.
  - intros e. apply keeps_bind; [apply keeps_tab_logger | intros _].
    apply keeps_raise.
Qed.

End TabFrame.

Section TabFacts.

Import WebDriver Frame.

(** X14: however a reset ends, it starts and stops no engine, launches
    and closes no browser and leaves the registered instance registered:
    it acts on pages and their contexts only. *)
Theorem closeCurrentTab_keeps_browser self :
  keeps engines (closeCurrentTab self) /\
  keeps browsers (closeCurrentTab self) /\
  keeps cls_instance (closeCurrentTab self).
Proof.
  split; [|split]; apply keeps_tab_closeCurrentTab; intros v w; reflexivity.
Qed.

End TabFacts.

(** ** webdriver.py: when a call into Playwright fails *)

Section Failures.

Import WebDriver.

Lemma bind_Raise_inv {S A B} (m : M S A) (k : A -> M S B) s e s' :
  bind m k s = (Raise e, s') ->
  m s = (Raise e, s') \/
  exists a s1, m s = (Ok a, s1) /\ k a s1 = (Raise e, s').
Proof.
  unfold bind. destruct (m s) as [[a|e0] s1]; intros H.
  - right. exists a, s1. split; [reflexivity | exact H].
  - injection H as <- <-. left. reflexivity.
Qed.

Lemma try_reraise_inv {A} (body : wM A) msg w e w' :
  try_except body (fun e => logger ERROR msg ;;; raise e) w = (Raise e, w') ->
  exists w1, body w = (Raise e, w1) /\
             w' = set_log (log w1 ++ [(ERROR, msg)]) w1.
Proof.
  unfold try_except. destruct (body w) as [[a|e0] w1]; intros H.
  - discriminate H.
  - injection H as <- <-. exists w1. split; reflexivity.
Qed.

Lemma may_fail_Raise_inv w e w1 :
  may_fail w = (Raise e, w1) -> exists fs, w1 = set_faults fs w.
Proof.
  unfold may_fail. destruct (faults w) as [|[e0|] fs]; intros [=]; subst.
  exists fs. reflexivity.
Qed.

Lemma getattr_Raise_inv self name w e w1 :
  getattr self name w = (Raise e, w1) -> w1 = w.
Proof.
  unfold getattr, bind, get, ret, raise.
  destruct (heap w !! self ≫= (.!! name)); intros [=]; subst; reflexivity.
Qed.

Lemma as_browser_Raise_inv v w e w1 :
  as_browser v w = (Raise e, w1) -> w1 = w.
Proof. destruct v; intros [=]; subst; reflexivity. Qed.

Lemma page_close_Raise_inv p w e w1 :
  page_close p w = (Raise e, w1) -> heap w1 = heap w /\ pages w1 = pages w.
Proof.
  unfold page_close. intros H. apply bind_Raise_inv in H as [H | (u & w0 & _ & H)].
  - apply may_fail_Raise_inv in H as (fs & ->). split; reflexivity.
  - discriminate H.
Qed.

Lemma new_context_Raise_inv b loc tz w e w1 :
  new_context b loc tz w = (Raise e, w1) ->
  heap w1 = heap w /\ pages w1 = pages w.
Proof.
  unfold new_context, bind at 1, get at 1.
  destruct (connected b w).
  - intros H. apply bind_Raise_inv in H as [H | (u & w0 & _ & H)].
    + apply may_fail_Raise_inv in H as (fs & ->). split; reflexivity.
    + discriminate H.
  - intros [=]; subst. split; reflexivity.
Qed.

Lemma new_page_Raise_inv b w e w1 :
  new_page b w = (Raise e, w1) -> heap w1 = heap w /\ pages w1 = pages w.
Proof.
  unfold new_page. intros H. apply bind_Raise_inv in H as [H | (c & w0 & _ & H)].
  - exact (new_context_Raise_inv _ _ _ _ _ _ H).
  - discriminate H.
Qed.

Lemma set_viewport_size_Raise_inv p size w e w1 :
  set_viewport_size p size w = (Raise e, w1) ->
  heap w1 = heap w /\ pages w1 = pages w.
Proof.
  unfold set_viewport_size, bind at 1, get at 1.
  destruct (pages w !! p) as [pg|]; [|intros [=]; subst; split; reflexivity].
  destruct (pg_closed pg); [intros [=]; subst; split; reflexivity|].
  intros H. apply bind_Raise_inv in H as [H | (u & w0 & _ & H)].
  - apply may_fail_Raise_inv in H as (fs & ->). split; reflexivity.
  - discriminate H.
Qed.

(** X15: the instance is registered before the browser is created.  So
    when the first acquisition fails, the half-built instance stays
    registered: every later [getInstance] returns it without trying
    again, and the class can no more be called. *)
Theorem failed_construction_stays_registered a w e w1 :
  cls_instance w = None ->
  getInstance a w = (Raise e, w1) ->
  cls_instance w1 = Some (length (heap w)) /\
  (forall a', getInstance a' w1 = (Ok (Some (length (heap w))), w1)) /\
  (forall a', exists w2,
     new a' w1 = (Raise (Exception "This class is a singleton!"), w2)).
Proof.
  intros Hcls H.
  set (self := length (heap w)) in *.
  set (w0 := set_cls_instance (Some self) (set_heap (heap w ++ [∅]) w)).
  assert (Hrun : getInstance a w
                 = match createDriver self a w0 with
                   | (Ok _, w') => (Ok (Some self), set_cls_instance (Some self) w')
                   | (Raise e', w') => (Raise e', w')
                   end).
  { unfold getInstance, new, alloc, init, bind, get, modify, ret. simpl.
    rewrite Hcls. simpl. rewrite Hcls. fold self. fold w0.
    destruct (createDriver self a w0) as [[[]|e'] w']; reflexivity. }
  rewrite Hrun in H.
  pose proof (keeps_instance_createDriver self a w0) as Hkeep.
  destruct (createDriver self a w0) as [[u|e'] w'] eqn:Hcd; [discriminate H|].
  injection H as <- <-. simpl in Hkeep.
  split; [exact Hkeep|]. split.
  - intros a'. apply getInstance_existing. exact Hkeep.
  - intros a'. eexists.
    unfold new, init, alloc, bind, get, modify, ret, raise. simpl.
    rewrite Hkeep. reflexivity.
Qed.

End Failures.

Section FailureRuns.

Import WebDriver.

(** The engine does not start in a fresh process. *)
Lemma failed_construction_stays_registered_witness :
  let w := boot Scenario.bare_host [Some (LibraryError "no display")] in
  let w1 := exec (getInstance Scenario.no_arguments) w in
  cls_instance w1 = Some (length (heap w)) /\
  (forall a', getInstance a' w1 = (Ok (Some (length (heap w))), w1)) /\
  (forall a', exists w2,
     new a' w1 = (Raise (Exception "This class is a singleton!"), w2)).
Proof.
  apply (failed_construction_stays_registered Scenario.no_arguments
           (boot Scenario.bare_host [Some (LibraryError "no display")])
           (LibraryError "no display")).
  - reflexivity.
  - vm_compute. reflexivity.
Defined.

End FailureRuns.

(** ** webdriver.py: after a shutdown, after a failed reset *)

Section Aftermath.

Import WebDriver Invariant.




Lemma dead_may_fail r p w :
  dead r p w -> wp may_fail (fun _ => dead r p) (dead r p) w.
Proof.
  intros H. unfold wp, may_fail.
  destruct (faults w) as [|[e|] fs]; exact H.
Qed.

Lemma dead_logger r p lv msg w :
  dead r p w -> wp (logger lv msg) (fun _ => dead r p) (dead r p) w.
Proof. intros H. exact H. Qed.


















(** X17: a reset of an open page that raises has logged the failure and
    left the session in one of three states.  Closing the page failed:
    the page is still current and open.  Or the page was closed and no
    new one could be opened: the closed page stays current, and every
    later reset does nothing.  Or the new page is current, but setting its
    viewport failed: it has Playwright's default viewport. *)
Theorem closeCurrentTab_failure self p w e w' :
  getDriver self w = (Ok (VPage p), w) ->
  is_closed p w = false ->
  closeCurrentTab self w = (Raise e, w') ->
  last (log w') = Some (ERROR, "Failed to close current tab.") /\
  ((getDriver self w' = (Ok (VPage p), w') /\ is_closed p w' = false) \/
   (getDriver self w' = (Ok (VPage p), w') /\ is_closed p w' = true /\
    closeCurrentTab self w' = (Ok tt, w')) \/
   (exists p' c,
      p' <> p /\ getDriver self w' = (Ok (VPage p'), w') /\
      is_closed p w' = true /\
      pages w' !! p' = Some (mk_page c false default_viewport))).
Proof.
  intros Hget Hopen H.
  pose proof Hget as Hattr. unfold getDriver in Hattr.
  apply getattr_Ok_inv in Hattr as (_ & Hattr).
  destruct (is_closed_false_inv p w Hopen) as (pg & Hpg & Hpgopen).
  assert (Hdriver : forall w2 q,
            heap w2 !! self ≫= (.!! "page") = Some (VPage q) ->
            getDriver self w2 = (Ok (VPage q), w2)).
  { intros w2 q Hq. apply getattr_Ok. exact Hq. }
  unfold closeCurrentTab in H. unfold getDriver in Hget.
  rewrite (bind_Ok _ _ _ _ _ Hget) in H.
  unfold bind at 1, get at 1 in H. rewrite Hopen in H. simpl negb in H.
  cbv iota in H.
  apply try_reraise_inv in H as (w1 & Hbody & ->).
  split; [simpl; apply last_snoc|].
  assert (Hstuck : forall w2,
            heap w2 = heap w ->
            pages w2 = <[p := mk_page (pg_context pg) true (pg_viewport pg)]> (pages w) ->
            let w3 := set_log (log w2 ++ [(ERROR, "Failed to close current tab.")]) w2 in
            getDriver self w3 = (Ok (VPage p), w3) /\ is_closed p w3 = true /\
            closeCurrentTab self w3 = (Ok tt, w3)).
  { intros w2 Hh2 Hp2 w3.
    assert (Hg3 : getDriver self w3 = (Ok (VPage p), w3)).
    { apply Hdriver. simpl. rewrite Hh2. exact Hattr. }
    assert (Hc3 : is_closed p w3 = true).
    { unfold is_closed. simpl. rewrite Hp2.
      rewrite list_lookup_insert_eq by (apply lookup_lt_Some in Hpg; exact Hpg).
      reflexivity. }
    split; [exact Hg3|]. split; [exact Hc3|].
    exact (closeCurrentTab_closed self p w3 Hg3 Hc3). }
  apply bind_Raise_inv in Hbody as [Hpc | (u & wa & Hpc & Hbody)].
  { left. apply page_close_Raise_inv in Hpc as (Hh & Hp). split.
    - apply Hdriver. simpl. rewrite Hh. exact Hattr.
    - unfold is_closed in *. simpl. rewrite Hp. exact Hopen. }
  apply page_close_Ok_inv in Hpc as (Hha & Hpa). rewrite Hpg in Hpa.
  apply bind_Raise_inv in Hbody as [Hgb | (vb & wb & Hgb & Hbody)].
  { right. left. apply getattr_Raise_inv in Hgb as ->.
    exact (Hstuck wa Hha Hpa). }
  apply getattr_Ok_inv in Hgb as (-> & _).
  apply bind_Raise_inv in Hbody as [Hab | (b & wb & Hab & Hbody)].
  { right. left. apply as_browser_Raise_inv in Hab as ->.
    exact (Hstuck wa Hha Hpa). }
  apply as_browser_Ok_inv in Hab as (_ & ->).
  apply bind_Raise_inv in Hbody as [Hnp | (p' & wc & Hnp & Hbody)].
  { right. left. apply new_page_Raise_inv in Hnp as (Hh & Hp).
    apply Hstuck; [rewrite Hh; exact Hha | rewrite Hp; exact Hpa]. }
  apply new_page_Ok_inv in Hnp as (-> & Hhc & (c & Hpc)).
  apply bind_Raise_inv in Hbody as [Hsa | (u1 & wd & Hsa & Hbody)];
    [discriminate Hsa|].
  apply setattr_Ok_inv in Hsa as (Hpd & Hhd).
  apply bind_Raise_inv in Hbody as [Hvs | (u2 & we & _ & Hbody)];
    [|discriminate Hbody].
  apply set_viewport_size_Raise_inv in Hvs as (Hh1 & Hp1).
  right. right. exists (length (pages wa)), c.
  assert (Hlen : length (pages wa) = length (pages w))
    by (rewrite Hpa; apply length_insert).
  assert (Hlt : p < length (pages w)) by (apply lookup_lt_Some in Hpg; exact Hpg).
  destruct (heap w !! self) as [d|] eqn:Hd; [|discriminate Hattr].
  rewrite Hhc, Hha, Hd in Hhd.
  split; [lia|]. split; [|split].
  - apply Hdriver. simpl. rewrite Hh1, Hhd.
    rewrite list_lookup_insert_eq by (apply lookup_lt_Some in Hd; exact Hd).
    simpl. apply lookup_insert_eq.
  - unfold is_closed. simpl. rewrite Hp1, Hpd, Hpc.
    rewrite lookup_app_l by lia. rewrite Hpa.
    rewrite list_lookup_insert_eq by exact Hlt. reflexivity.
  - simpl. rewrite Hp1, Hpd, Hpc. apply list_lookup_middle. reflexivity.
Qed.

End Aftermath.

Section AftermathRuns.

Import WebDriver.


(** In the process of [Scenario.active] the page closes, and then the
    new context cannot be created. *)
Lemma closeCurrentTab_failure_witness :
  let w := set_faults [None; Some (LibraryError "out of memory")] Scenario.active in
  let w' := exec (closeCurrentTab 0) w in
  last (log w') = Some (ERROR, "Failed to close current tab.") /\
  ((getDriver 0 w' = (Ok (VPage 0), w') /\ is_closed 0 w' = false) \/
   (getDriver 0 w' = (Ok (VPage 0), w') /\ is_closed 0 w' = true /\
    closeCurrentTab 0 w' = (Ok tt, w')) \/
   (exists p' c,
      p' <> 0 /\ getDriver 0 w' = (Ok (VPage p'), w') /\
      is_closed 0 w' = true /\
      pages w' !! p' = Some (mk_page c false default_viewport))).
Proof.
  apply (closeCurrentTab_failure 0 0
           (set_faults [None; Some (LibraryError "out of memory")] Scenario.active)
           (LibraryError "out of memory")).
  - vm_compute. reflexivity.
  - vm_compute. reflexivity.
  - vm_compute. reflexivity.
Defined.

End AftermathRuns.

(** ** webdriver.py: when the first acquisition goes through *)

Section FirstAcquisition.

Import WebDriver.

Lemma playwright_start_ok w :
  faults w = [] ->
  playwright_start w
  = (Ok (length (engines w)), set_engines (engines w ++ [true]) w).
Proof.
  intros Hf. unfold playwright_start.
  rewrite (bind_Ok _ _ _ _ _ (may_fail_ok w Hf)). reflexivity.
Qed.

Lemma chromium_launch_ok n opts w :
  faults w = [] ->
  chromium_launch n opts w
  = (Ok (length (browsers w)),
     set_browsers (browsers w ++ [mk_browser n opts true]) w).
Proof.
  intros Hf. unfold chromium_launch.
  rewrite (bind_Ok _ _ _ _ _ (may_fail_ok w Hf)). reflexivity.
Qed.

Lemma new_context_ok b loc tz w :
  faults w = [] -> connected b w = true ->
  new_context b loc tz w
  = (Ok (length (contexts w)),
     set_contexts (contexts w ++ [mk_context b loc tz]) w).
Proof.
  intros Hf Hc. unfold new_context. unfold bind at 1, get at 1.
  rewrite Hc. rewrite (bind_Ok _ _ _ _ _ (may_fail_ok w Hf)). reflexivity.
Qed.

Lemma logger_run lv msg w :
  logger lv msg w = (Ok tt, set_log (log w ++ [(lv, msg)]) w).
Proof. reflexivity. Qed.

Lemma setattr_run self name v w d :
  heap w !! self = Some d ->
  setattr self name v w
  = (Ok tt, set_heap (<[self := <[name := v]> d]> (heap w)) w).
Proof. intros Hd. unfold setattr, modify. rewrite Hd. reflexivity. Qed.

(** With a host that answers and no failing library call, the body of
    [createDriver] runs to its end. *)
Lemma createDriver_returns self a w d tz loc :
  heap w !! self = Some d ->
  get_localzone_name (the_host w) = Ok tz ->
  getdefaultlocale (the_host w) = Ok loc ->
  faults w = [] ->
  exists w1, createDriver self a w = (Ok tt, w1).
Proof.
  intros Hd Htz Hloc Hf. unfold createDriver.
  unfold bind at 1, get at 1. rewrite Htz, Hloc.
  unfold bind at 1, of_result at 1. unfold bind at 1, of_result at 1.
  unfold try_except.
  rewrite (bind_Ok _ _ _ _ _ (logger_run _ _ _)).
  match goal with |- context [bind playwright_start _ ?w1] =>
    rewrite (bind_Ok _ _ _ _ _ (playwright_start_ok w1 Hf))
  end.
  rewrite (bind_Ok _ _ _ _ _ (logger_run _ _ _)).
  match goal with |- context [bind (chromium_launch ?n ?o) _ ?w1] =>
    rewrite (bind_Ok _ _ _ _ _ (chromium_launch_ok n o w1 Hf))
  end.
  rewrite (bind_Ok _ _ _ _ _ (logger_run _ _ _)).
  match goal with |- context [bind (new_context ?b None None) _ ?w1] =>
    assert (Hc1 : connected b w1 = true)
      by (unfold connected; simpl; rewrite list_lookup_middle by reflexivity;
          reflexivity);
    rewrite (bind_Ok _ _ _ _ _ (new_context_ok b None None w1 Hf Hc1))
  end.
  rewrite (bind_Ok _ _ _ _ _ (logger_run _ _ _)).
  match goal with |- context [bind (setattr self "browser" ?v) _ ?w1] =>
    rewrite (bind_Ok _ _ _ _ _ (setattr_run self "browser" v w1 d Hd))
  end.
  match goal with |- context [bind (new_page ?b) _ ?w1] =>
    assert (Hc2 : connected b w1 = true)
      by (unfold connected; simpl; rewrite list_lookup_middle by reflexivity;
          reflexivity);
    rewrite (bind_Ok _ _ _ _ _ (new_page_ok b w1 Hf Hc2))
  end.
  match goal with |- context [bind (setattr self "page" ?v) _ ?w1] =>
    assert (Hd2 : exists d2, heap w1 !! self = Some d2)
      by (eexists; simpl; apply list_lookup_insert_eq;
          apply lookup_lt_Some in Hd; exact Hd);
    destruct Hd2 as (d2 & Hd2);
    rewrite (bind_Ok _ _ _ _ _ (setattr_run self "page" v w1 d2 Hd2))
  end.
  match goal with |- context [bind (set_viewport_size ?p viewport) _ ?w1] =>
    assert (Hp : exists c, pages w1 !! p = Some (mk_page c false default_viewport))
      by (eexists; simpl; apply list_lookup_middle; reflexivity);
    destruct Hp as (c & Hp);
    rewrite (bind_Ok _ _ _ _ _
               (set_viewport_size_ok p viewport w1 _ Hf Hp eq_refl))
  end.
  eexists. reflexivity.
Qed.

(** X18: the first acquisition returns the new instance whenever the host
    answers the two questions about time zone and locale and no call into
    Playwright fails.  It raises, with nothing logged and nothing started,
    when one of the two questions raises, although neither answer is
    used. *)
Theorem first_getInstance_depends_on_the_host a w :
  cls_instance w = None ->
  (forall tz loc,
     get_localzone_name (the_host w) = Ok tz ->
     getdefaultlocale (the_host w) = Ok loc ->
     faults w = [] ->
     exists w1, getInstance a w = (Ok (Some (length (heap w))), w1)) /\
  (forall e,
     get_localzone_name (the_host w) = Raise e \/
     (is_ok (get_localzone_name (the_host w)) = true /\
      getdefaultlocale (the_host w) = Raise e) ->
     exists w1,
       getInstance a w = (Raise e, w1) /\
       log w1 = log w /\ engines w1 = engines w /\ browsers w1 = browsers w).
Proof.
  intros Hcls.
  set (self := length (heap w)).
  set (w0 := set_cls_instance (Some self) (set_heap (heap w ++ [∅]) w)).
  assert (Hrun : getInstance a w
                 = match createDriver self a w0 with
                   | (Ok _, w') => (Ok (Some self), set_cls_instance (Some self) w')
                   | (Raise e', w') => (Raise e', w')
                   end).
  { unfold getInstance, new, alloc, init, bind, get, modify, ret. simpl.
    rewrite Hcls. simpl. rewrite Hcls. fold self. fold w0.
    destruct (createDriver self a w0) as [[[]|e'] w']; reflexivity. }
  rewrite Hrun. split.
  - intros tz loc Htz Hloc Hf.
    destruct (createDriver_returns self a w0 ∅ tz loc) as (w1 & ->);
      [| exact Htz | exact Hloc | exact Hf | eexists; reflexivity].
    simpl. apply list_lookup_middle. reflexivity.
  - intros e He. exists w0.
    assert (Hcd : createDriver self a w0 = (Raise e, w0)).
    { unfold createDriver, bind, get, of_result. simpl.
      destruct He as [-> | [Hok ->]]; [reflexivity|].
      destruct (get_localzone_name (the_host w)); [reflexivity | discriminate Hok]. }
    rewrite Hcd. split; [reflexivity|]. split; [reflexivity|].
    split; reflexivity.
Qed.

End FirstAcquisition.

Section FirstAcquisitionRuns.

Import WebDriver.

(** A host on which the time zone cannot be found. *)
Lemma first_getInstance_depends_on_the_host_witness :
  let h := mk_host (Raise (LibraryError "Can not find any timezone configuration"))
             (Ok (Some "en_US", Some "UTF-8")) None in
  (forall tz loc,
     get_localzone_name (the_host (boot h [])) = Ok tz ->
     getdefaultlocale (the_host (boot h [])) = Ok loc ->
     faults (boot h []) = [] ->
     exists w1,
       getInstance Scenario.no_arguments (boot h [])
       = (Ok (Some (length (heap (boot h [])))), w1)) /\
  (forall e,
     get_localzone_name (the_host (boot h [])) = Raise e \/
     (is_ok (get_localzone_name (the_host (boot h []))) = true /\
      getdefaultlocale (the_host (boot h [])) = Raise e) ->
     exists w1,
       getInstance Scenario.no_arguments (boot h []) = (Raise e, w1) /\
       log w1 = log (boot h []) /\ engines w1 = engines (boot h []) /\
       browsers w1 = browsers (boot h [])).
Proof.
  intros h.
  apply (first_getInstance_depends_on_the_host Scenario.no_arguments (boot h [])).
  reflexivity.
Defined.

End FirstAcquisitionRuns.

(** ** webdriver.py: what a failed first acquisition leaves behind *)

Section HalfBuilt.

Import WebDriver Frame.

(** The attribute dicts and the pages. *)
Let hp (w : world) : list (gmap string value) * list page := (heap w, pages w).

Lemma keeps_hp_may_fail : keeps hp may_fail.
Proof. apply keeps_tab_may_fail. intros v w. reflexivity. Qed.

Lemma keeps_hp_logger lv msg : keeps hp (logger lv msg).
Proof. apply keeps_tab_logger. intros v w. reflexivity. Qed.

Lemma keeps_hp_playwright_start : keeps hp playwright_start.
Proof.
  unfold playwright_start.
  apply keeps_bind; [apply keeps_hp_may_fail | intros _].
  apply keeps_bind; [apply keeps_get | intros w].
  apply keeps_bind; [|intros _; apply keeps_ret].
  apply keeps_modify. intros w1. reflexivity.
Qed.

Lemma keeps_hp_chromium_launch n opts : keeps hp (chromium_launch n opts).
Proof.
  unfold chromium_launch.
  apply keeps_bind; [apply keeps_hp_may_fail | intros _].
  apply keeps_bind; [apply keeps_get | intros w].
  apply keeps_bind; [|intros _; apply keeps_ret].
  apply keeps_modify. intros w1. reflexivity.
Qed.

Lemma keeps_hp_new_context b loc tz : keeps hp (new_context b loc tz).
Proof. apply keeps_tab_new_context; intros v w; reflexivity. Qed.

Lemma getattr_missing self name w :
  heap w !! self ≫= (.!! name) = None ->
  getattr self name w = (Raise (AttributeError name), w).
Proof. intros H. unfold getattr, bind, get, raise. rewrite H. reflexivity. Qed.

Lemma keeps_at {S T A} (proj : S -> T) (m : M S A) s r s' :
  keeps proj m -> m s = (r, s') -> proj s' = proj s.
Proof. intros Hm H. specialize (Hm s). rewrite H in Hm. exact Hm. Qed.

(** A step that keeps dicts and pages, in a sequence that raises: either
    it raised, or the rest did from a state with the same dicts and
    pages. *)
Lemma keeps_hp_step {A B} (m : wM A) (k : A -> wM B) w e w1 :
  keeps hp m ->
  bind m k w = (Raise e, w1) ->
  hp w1 = hp w \/
  exists a w0, hp w0 = hp w /\ k a w0 = (Raise e, w1).
Proof.
  intros Hm H. apply bind_Raise_inv in H as [H | (a & w0 & H & Hk)].
  - left. exact (keeps_at hp m w _ w1 Hm H).
  - right. exists a, w0. split; [exact (keeps_at hp m w _ w0 Hm H) | exact Hk].
Qed.

(** X19: when the first acquisition raises, the registered instance is
    in one of two states.  Either it has no attribute [page] and no page
    was opened: [getDriver] and [closeCurrentTab] raise [AttributeError],
    the latter outside its [try], so unlogged.  Or the page was opened and
    only setting its viewport failed: [getDriver] returns that page, open
    and with Playwright's default viewport. *)
Theorem failed_construction_aftermath a w e w1 :
  cls_instance w = None ->
  getInstance a w = (Raise e, w1) ->
  (getDriver (length (heap w)) w1 = (Raise (AttributeError "page"), w1) /\
   closeCurrentTab (length (heap w)) w1 = (Raise (AttributeError "page"), w1) /\
   pages w1 = pages w) \/
  (exists c,
     getDriver (length (heap w)) w1 = (Ok (VPage (length (pages w))), w1) /\
     pages w1 = pages w ++ [mk_page c false default_viewport]).
Proof.
  intros Hcls H.
  set (self := length (heap w)) in *.
  set (w0 := set_cls_instance (Some self) (set_heap (heap w ++ [∅]) w)).
  assert (Hrun : getInstance a w
                 = match createDriver self a w0 with
                   | (Ok _, w') => (Ok (Some self), set_cls_instance (Some self) w')
                   | (Raise e', w') => (Raise e', w')
                   end).
  { unfold getInstance, new, alloc, init, bind, get, modify, ret. simpl.
    rewrite Hcls. simpl. rewrite Hcls. fold self. fold w0.
    destruct (createDriver self a w0) as [[[]|e'] w']; reflexivity. }
  rewrite Hrun in H.
  destruct (createDriver self a w0) as [[u|e'] w'] eqn:Hcd; [discriminate H|].
  injection H as -> ->.
  assert (Hself : (heap w ++ [∅]) !! self = Some (∅ : gmap string value)).
  { apply list_lookup_middle. reflexivity. }
  (* no attribute [page]: both methods raise *)
  assert (Hnone : forall w2 d,
            heap w2 !! self = Some d -> d !! "page" = None -> pages w2 = pages w ->
            getDriver self w2 = (Raise (AttributeError "page"), w2) /\
            closeCurrentTab self w2 = (Raise (AttributeError "page"), w2) /\
            pages w2 = pages w).
  { intros w2 d Hd Hpage Hp.
    assert (Hg : getattr self "page" w2 = (Raise (AttributeError "page"), w2)).
    { apply getattr_missing. rewrite Hd. exact Hpage. }
    split; [exact Hg|]. split; [|exact Hp].
    unfold closeCurrentTab. apply bind_Raise. exact Hg. }
  assert (Hsame : forall w2, hp w2 = hp w0 ->
            getDriver self w2 = (Raise (AttributeError "page"), w2) /\
            closeCurrentTab self w2 = (Raise (AttributeError "page"), w2) /\
            pages w2 = pages w).
  { intros w2 [= Hh Hp]. apply (Hnone w2 ∅).
    - rewrite Hh. exact Hself.
    - apply lookup_empty.
    - rewrite Hp. reflexivity. }
  unfold createDriver in Hcd. unfold bind at 1, get at 1 in Hcd.
  apply bind_Raise_inv in Hcd as [Hcd | (tz & wa & Htz & Hcd)].
  { left. unfold of_result in Hcd. injection Hcd as _ <-.
    apply Hsame. reflexivity. }
  unfold of_result in Htz. injection Htz as _ <-.
  apply bind_Raise_inv in Hcd as [Hcd | (loc & wa & Hloc & Hcd)].
  { left. unfold of_result in Hcd. injection Hcd as _ <-.
    apply Hsame. reflexivity. }
  unfold of_result in Hloc. injection Hloc as _ <-.
  apply try_reraise_inv in Hcd as (w2 & Hbody & ->).
  apply keeps_hp_step in Hbody as [Hhp | (u1 & s1 & H1 & Hbody)];
    [left; apply Hsame; exact Hhp | | apply keeps_hp_logger].
  apply keeps_hp_step in Hbody as [Hhp | (engine & s2 & H2 & Hbody)];
    [left; apply Hsame; unfold hp in *; simpl in *; congruence | | apply keeps_hp_playwright_start].
  apply keeps_hp_step in Hbody as [Hhp | (u3 & s3 & H3 & Hbody)];
    [left; apply Hsame; unfold hp in *; simpl in *; congruence | | apply keeps_hp_logger].
  apply keeps_hp_step in Hbody as [Hhp | (b & s4 & H4 & Hbody)];
    [left; apply Hsame; unfold hp in *; simpl in *; congruence | | apply keeps_hp_chromium_launch].
  apply keeps_hp_step in Hbody as [Hhp | (u5 & s5 & H5 & Hbody)];
    [left; apply Hsame; unfold hp in *; simpl in *; congruence | | apply keeps_hp_logger].
  apply keeps_hp_step in Hbody as [Hhp | (c0 & s6 & H6 & Hbody)];
    [left; apply Hsame; unfold hp in *; simpl in *; congruence | | apply keeps_hp_new_context].
  apply keeps_hp_step in Hbody as [Hhp | (u7 & s7 & H7 & Hbody)];
    [left; apply Hsame; unfold hp in *; simpl in *; congruence | | apply keeps_hp_logger].
  assert (H07 : hp s7 = hp w0) by (unfold hp in *; congruence).
  injection H07 as Hh7 Hp7.
  apply bind_Raise_inv in Hbody as [Hsa | (u8 & s8 & Hsa & Hbody)];
    [discriminate Hsa|].
  apply setattr_Ok_inv in Hsa as (Hp8 & Hh8).
  rewrite Hh7, Hself in Hh8.
  assert (Hlt : self < length (heap w ++ [∅]))
    by (apply lookup_lt_Some in Hself; exact Hself).
  apply bind_Raise_inv in Hbody as [Hnp | (p & s9 & Hnp & Hbody)].
  { left. apply new_page_Raise_inv in Hnp as (Hh & Hp).
    apply (Hnone _ (<["browser" := VBrowser b]> ∅)).
    - simpl. rewrite Hh, Hh8. apply list_lookup_insert_eq. exact Hlt.
    - rewrite lookup_insert_ne by discriminate. apply lookup_empty.
    - simpl. rewrite Hp, Hp8, Hp7. reflexivity. }
  apply new_page_Ok_inv in Hnp as (-> & Hh9 & (c & Hp9)).
  apply bind_Raise_inv in Hbody as [Hsa | (u10 & s10 & Hsa & Hbody)];
    [discriminate Hsa|].
  apply setattr_Ok_inv in Hsa as (Hp10 & Hh10).
  rewrite Hh9, Hh8 in Hh10.
  rewrite list_lookup_insert_eq in Hh10 by exact Hlt.
  apply bind_Raise_inv in Hbody as [Hvs | (u11 & s11 & _ & Hbody)];
    [|discriminate Hbody].
  apply set_viewport_size_Raise_inv in Hvs as (Hh & Hp).
  right. exists c. split.
  - replace (length (pages w)) with (length (pages s8))
      by (rewrite Hp8, Hp7; reflexivity).
    apply getattr_Ok. simpl. rewrite Hh, Hh10.
    rewrite list_lookup_insert_eq
      by (rewrite length_insert; exact Hlt).
    simpl. apply lookup_insert_eq.
  - simpl. rewrite Hp, Hp10, Hp9, Hp8, Hp7. reflexivity.
Qed.

End HalfBuilt.

Section HalfBuiltRuns.

Import WebDriver.

(** The browser cannot be launched in a fresh process. *)
Lemma failed_construction_aftermath_witness :
  let w := boot Scenario.bare_host [None; Some (LibraryError "no display")] in
  let w1 := exec (getInstance Scenario.no_arguments) w in
  (getDriver (length (heap w)) w1 = (Raise (AttributeError "page"), w1) /\
   closeCurrentTab (length (heap w)) w1 = (Raise (AttributeError "page"), w1) /\
   pages w1 = pages w) \/
  (exists c,
     getDriver (length (heap w)) w1 = (Ok (VPage (length (pages w))), w1) /\
     pages w1 = pages w ++ [mk_page c false default_viewport]).
Proof.
  apply (failed_construction_aftermath Scenario.no_arguments
           (boot Scenario.bare_host [None; Some (LibraryError "no display")])
           (LibraryError "no display")).
  - reflexivity.
  - vm_compute. reflexivity.
Defined.

End HalfBuiltRuns.

(** ** webdriver.py: attributes are set, never deleted *)

Section Attributes.

Import WebDriver Invariant Process.

Lemma adds_refl w : adds w w.
Proof. intros self name H. exact H. Qed.

Lemma adds_trans w1 w2 w3 : adds w1 w2 -> adds w2 w3 -> adds w1 w3.
Proof. intros H12 H23 self name H. apply H23, H12, H. Qed.

Lemma only_adds_ret {A} (a : A) : only_adds (ret a).
Proof. intros w. apply adds_refl. Qed.

Lemma only_adds_raise {A} e : only_adds (raise (A := A) e).
Proof. intros w. apply adds_refl. Qed.

Lemma only_adds_get : only_adds get.
Proof. intros w. apply adds_refl. Qed.

Lemma only_adds_of_result {A} (r : result A) : only_adds (of_result r).
Proof. intros w. apply adds_refl. Qed.

Lemma only_adds_modify (f : world -> world) :
  (forall w, adds w (f w)) -> only_adds (modify f).
Proof. intros Hf w. apply Hf. Qed.

Lemma only_adds_bind {A B} (m : wM A) (k : A -> wM B) :
  only_adds m -> (forall a, only_adds (k a)) -> only_adds (bind m k).
Proof.
  intros Hm Hk w. unfold bind. specialize (Hm w).
  destruct (m w) as [[a|e] w1]; simpl in *; [|exact Hm].
  exact (adds_trans _ _ _ Hm (Hk a w1)).
Qed.

Lemma only_adds_try {A} (body : wM A) (handler : exn -> wM A) :
  only_adds body -> (forall e, only_adds (handler e)) ->
  only_adds (try_except body handler).
Proof.
  intros Hb Hh w. unfold try_except. specialize (Hb w).
  destruct (body w) as [[a|e] w1]; simpl in *; [exact Hb|].
  exact (adds_trans _ _ _ Hb (Hh e w1)).
Qed.

(** A change that leaves the dicts alone. *)
Lemma adds_same_heap w w' : heap w' = heap w -> adds w w'.
Proof. intros Hh self name H. unfold attribute in *. rewrite Hh. exact H. Qed.

Lemma only_adds_may_fail : only_adds may_fail.
Proof.
  intros w. unfold may_fail.
  destruct (faults w) as [|[e|] fs]; apply adds_same_heap; reflexivity.
Qed.

Lemma only_adds_setattr self name v : only_adds (setattr self name v).
Proof.
  apply only_adds_modify. intros w s n H.
  destruct (heap w !! self) as [d|] eqn:Hd; [|exact H].
  unfold attribute in *. simpl.
  destruct (decide (s = self)) as [->|Hne].
  - rewrite list_lookup_insert_eq by (apply lookup_lt_Some in Hd; exact Hd).
    rewrite Hd in H. simpl in *.
    destruct (decide (n = name)) as [->|Hn].
    + rewrite lookup_insert_eq. eauto.
    + rewrite lookup_insert_ne by congruence. exact H.
  - rewrite list_lookup_insert_ne by congruence. exact H.
Qed.

Lemma only_adds_alloc : only_adds alloc.
Proof.
  intros w s n H. unfold alloc, bind, get, modify, ret, attribute in *. simpl.
  destruct (heap w !! s) as [d|] eqn:Hd; [|destruct H as [x H]; discriminate H].
  rewrite lookup_app_l by (apply lookup_lt_Some in Hd; exact Hd).
  rewrite Hd. exact H.
Qed.

End Attributes.

Ltac adds_step :=
  first
    [ apply only_adds_setattr
    | apply only_adds_alloc
    | apply only_adds_may_fail
    | apply only_adds_bind; [| intros ?]
    | apply only_adds_try; [| intros ?]
    | apply only_adds_ret
    | apply only_adds_raise
    | apply only_adds_get
    | apply only_adds_of_result
    | apply only_adds_modify; intros ?;
      repeat match goal with
             | |- context [match ?x with _ => _ end] => destruct x
             end;
      apply adds_same_heap; reflexivity
    | match goal with
      | |- Invariant.only_adds (match ?x with _ => _ end) => destruct x
      | |- Invariant.only_adds (if ?x then _ else _) => destruct x
      end ].

Section AttributesKept.

Import WebDriver Invariant Process.

Lemma only_adds_createDriver self a : only_adds (createDriver self a).
Proof. unfold createDriver. repeat adds_step. Qed.

Lemma only_adds_new a : only_adds (new a).
Proof.
  unfold new, init.
  repeat first [ apply only_adds_createDriver | adds_step ].
Qed.

Lemma only_adds_getInstance a : only_adds (getInstance a).
Proof.
  unfold getInstance.
  repeat first [ apply only_adds_new | adds_step ].
Qed.

Lemma only_adds_closeDriver self : only_adds (closeDriver self).
Proof. unfold closeDriver, as_browser. repeat adds_step. Qed.

Lemma only_adds_closeCurrentTab self : only_adds (closeCurrentTab self).
Proof. unfold closeCurrentTab, as_browser. repeat adds_step. Qed.

Lemma only_adds_getDriver self : only_adds (getDriver self).
Proof. unfold getDriver, getattr. repeat adds_step. Qed.

Lemma adds_step_of_process w x : adds w (step w x).
Proof.
  destruct x as [a|a|self|self|self|p]; simpl; unfold exec.
  - apply only_adds_getInstance.
  - apply only_adds_new.
  - apply only_adds_getDriver.
  - apply only_adds_closeDriver.
  - apply only_adds_closeCurrentTab.
  - unfold close_out_of_band. destruct (pages w !! p);
      apply adds_same_heap; reflexivity.
Qed.

Lemma adds_steps xs w : adds w (fold_left step xs w).
Proof.
  revert w. induction xs as [|x xs IH]; intros w; simpl.
  - apply adds_refl.
  - exact (adds_trans _ _ _ (adds_step_of_process w x) (IH (step w x))).
Qed.

(** X20: no method deletes an attribute.  So once [getDriver] has
    returned on an object, it returns a page on that object after
    whatever the process does next: it never raises again, even after a
    shutdown or a failed reset (the page it returns may be closed). *)
Theorem getDriver_keeps_returning h fs (xs ys : list action) self v :
  getDriver self (run h fs xs) = (Ok v, run h fs xs) ->
  exists p,
    getDriver self (run h fs (xs ++ ys))
    = (Ok (VPage p), run h fs (xs ++ ys)).
Proof.
  intros H. unfold getDriver in H. apply getattr_Ok_inv in H as (_ & Hattr).
  assert (Hlater : is_Some (attribute (run h fs (xs ++ ys)) self "page")).
  { unfold run. rewrite fold_left_app. apply adds_steps.
    unfold attribute. fold (run h fs xs). rewrite Hattr. eauto. }
  destruct Hlater as (v' & Hv').
  destruct (good_run h fs (xs ++ ys)) as (Ha & _ & _).
  unfold attribute in Hv'.
  destruct (heap (run h fs (xs ++ ys)) !! self) as [d|] eqn:Hd;
    [|discriminate Hv'].
  simpl in Hv'. destruct (Ha self d Hd) as (_ & _ & Hpage).
  destruct (Hpage v' Hv') as (p & ->).
  exists p. apply getattr_Ok. rewrite Hd. exact Hv'.
Qed.

End AttributesKept.

Section AttributesRuns.

Import WebDriver Process.

(** An acquisition, then a shutdown and a reset. *)
Lemma getDriver_keeps_returning_witness :
  exists p,
    getDriver 0
      (run Scenario.bare_host []
         ([GetInstance Scenario.no_arguments] ++ [CloseDriver 0; CloseCurrentTab 0]))
    = (Ok (VPage p),
       run Scenario.bare_host []
         ([GetInstance Scenario.no_arguments] ++ [CloseDriver 0; CloseCurrentTab 0])).
Proof.
  apply (getDriver_keeps_returning Scenario.bare_host []
           [GetInstance Scenario.no_arguments] [CloseDriver 0; CloseCurrentTab 0]
           0 (VPage 0)).
  vm_compute. reflexivity.
Defined.

End AttributesRuns.
